(** * Event status, countdown, clocks and accordion logic of [js/main.js]

    The page shows two clocks and a list of scheduled events.  Once per
    second, and once when the document has loaded, the clocks are
    written and every event is classified as upcoming, live or passed,
    its status boxes and countdown are rewritten, and on load the first
    live event is opened and scrolled to; a click on the header of an
    item opens or closes it.

    The development embeds that logic: the numbers the script computes
    with, the classifier [getEventStatus], the pass over the accordion
    items [updateAccordionHeaders], [toggleAccordion], [formatTime],
    [updateClocks], the load handler and the handlers of the clicks and
    of the timers, and then proves the properties of the classifier, of
    the pass, of the accordion, of the clocks and of the life of the
    page. *)

From Stdlib Require Import ZArith Ascii String.
From stdpp Require Import gmap strings list pretty.

Local Open Scope Z_scope.

(** ** The numbers of the script

    Every number the script computes with is a time value in
    milliseconds, a sum or difference of such values, or a quotient of
    one rounded down, so it is an integer; the only other value that
    occurs is [NaN], the time value of a date that could not be parsed.
    Arithmetic on [NaN] gives [NaN] and every comparison with [NaN] is
    false.  Time values are at most 8.64e15 in magnitude and a double
    holds every integer up to 2^53, about 9.0e15: the sums with the two
    constants are exact, the tests on a distance come out the same on
    the rounded distance, and a distance the countdown is computed from
    is exact unless the clock is set more than 11,000 years before 1970.
    The arithmetic is therefore taken as exact integer arithmetic. *)
Module Js.

Inductive num : Set :=
| Num (z : Z)
| NaN.

(** [a + b] *)
Definition add (a b : num) : num :=
  match a, b with
  | Num x, Num y => Num (x + y)
  | _, _ => NaN
  end.

(** [a - b] *)
Definition sub (a b : num) : num :=
  match a, b with
  | Num x, Num y => Num (x - y)
  | _, _ => NaN
  end.

(** [a % b]: the remainder takes the sign of the dividend. *)
Definition rem (a b : num) : num :=
  match a, b with
  | Num x, Num y => if y =? 0 then NaN else Num (Z.rem x y)
  | _, _ => NaN
  end.

(** [Math.floor(a / b)].  The divisors of the script are positive
    constants; a zero divisor is given no integer here. *)
Definition floorDiv (a b : num) : num :=
  match a, b with
  | Num x, Num y => if y =? 0 then NaN else Num (x / y)
  | _, _ => NaN
  end.

(** [a < b], [a <= b], [a >= b], [a > b] *)
Definition lt (a b : num) : bool :=
  match a, b with
  | Num x, Num y => x <? y
  | _, _ => false
  end.

Definition le (a b : num) : bool :=
  match a, b with
  | Num x, Num y => x <=? y
  | _, _ => false
  end.

Definition ge (a b : num) : bool := le b a.

Definition gt (a b : num) : bool := lt b a.

(** [String(a)]: the decimal digits (a number of 22 digits or more, which
    would be printed with an exponent, is beyond any time value). *)
Definition toString (a : num) : string :=
  match a with
  | Num x => pretty x
  | NaN => "NaN"
  end.

(** [s.padStart(n, c)] for a one-character filler [c] *)
Definition padStart (n : nat) (c : ascii) (s : string) : string :=
  string_of_list_ascii (replicate (n - String.length s)%nat c) +:+ s.

End Js.

Export Js(num, Num, NaN).

Coercion Num : Z >-> num.

Declare Scope js_scope.
Delimit Scope js_scope with js.
Bind Scope js_scope with num.
Infix "+" := Js.add : js_scope.
Infix "-" := Js.sub : js_scope.
Infix "%%" := Js.rem (at level 40, left associativity) : js_scope.
Infix "<?" := Js.lt : js_scope.
Infix "<=?" := Js.le : js_scope.
Infix ">=?" := Js.ge (at level 70) : js_scope.
Infix ">?" := Js.gt (at level 70) : js_scope.

(** ** Configuration *)

(** 3 minutes before the start an event turns from upcoming to live. *)
Definition LIVE_THRESHOLD_MS : Z := 3 * 60 * 1000.

(** 6 hours after the start an event turns from live to passed. *)
Definition LIVE_DURATION_MS : Z := 6 * 60 * 60 * 1000.

(** ** Countdown logic *)

(** What [getEventStatus] returns. *)
Record EventStatus : Set := mkEventStatus {
  status : string;
  timerText : string
}.

(** The four components of the time left, as the upcoming branch of
    [getEventStatus] computes them from the distance to the start. *)
Record Remaining : Set := mkRemaining {
  days : num;
  hours : num;
  minutes : num;
  seconds : num
}.

Definition remaining (distance : num) : Remaining :=
  {| days := Js.floorDiv distance (1000 * 60 * 60 * 24);
     hours := Js.floorDiv (distance %% (1000 * 60 * 60 * 24))%js (1000 * 60 * 60);
     minutes := Js.floorDiv (distance %% (1000 * 60 * 60))%js (1000 * 60);
     seconds := Js.floorDiv (distance %% (1000 * 60))%js 1000 |}.

Definition pad (n : num) : string := Js.padStart 2 "0" (Js.toString n).

(** The double quote of the markup. *)
Definition dq : string := String (ascii_of_nat 34) EmptyString.

Definition spanOpen : string := "<span class=" +:+ dq +:+ "time-value event" +:+ dq +:+ ">".

(** The text of the countdown; the days are shown only when there are some. *)
Definition countdownText (r : Remaining) : string :=
  (if (days r >? 0)%js
   then "Ostáva: " +:+ spanOpen +:+ pad (days r) +:+ ":</span>"
   else "Ostáva: ")
  +:+ spanOpen +:+ pad (hours r) +:+ ":" +:+ pad (minutes r) +:+ ":"
  +:+ pad (seconds r) +:+ "</span>".

(** The body of [getEventStatus] after its two reads: [now] is the clock
    reading and [eventTime] the time value of the event date. *)
Definition getEventStatusAt (now : Z) (eventTime : num) : EventStatus :=
  let distanceToStart := (eventTime - now)%js in
  let liveEndTime := (eventTime + LIVE_DURATION_MS)%js in
  let distanceToLiveEnd := (liveEndTime - now)%js in
  if (distanceToLiveEnd <? 0)%js then
    {| status := "passed"; timerText := "Už prebehlo" |}
  else if (distanceToStart <=? LIVE_THRESHOLD_MS)%js then
    {| status := "live"; timerText := "Naživo" |}
  else
    let distance := distanceToStart in
    {| status := "upcoming"; timerText := countdownText (remaining distance) |}.

(** The condition under which [updateAccordionHeaders] marks an item as
    live in its data attribute. *)
Definition isTemporarilyLive (now : Z) (eventTime : num) : bool :=
  (eventTime - now <=? LIVE_THRESHOLD_MS)%js && (eventTime + LIVE_DURATION_MS >=? now)%js.

(** The place of a status in the life of an event: upcoming, then live,
    then passed. *)
Definition statusRank (s : string) : nat :=
  if decide (s = "upcoming") then 0
  else if decide (s = "live") then 1
  else if decide (s = "passed") then 2
  else 3.

(** ** The platform

    What the script asks of the browser about time: the wall clock, read
    by [new Date().getTime()], and the parsing of a date string, done by
    [new Date(s).getTime()].  [clock k] is what the [k]-th reading of the
    clock gives. *)
Class Platform : Type := {
  clock : nat → Z;
  parseDate : string → num
}.

(** ** The document *)

(** A status box: its content and its classes.  The status boxes and the
    countdown elements are taken to be distinct elements of the document,
    none inside another, and the accordion items not to be nested. *)
Record StatusBox : Set := mkStatusBox {
  innerHTML : string;
  classList : list string
}.

(** An accordion item: the two data attributes, the status boxes inside
    it, whether it has the class [active], the [max-height] style and the
    [scrollHeight] of its content panel, and whether the icon of its
    header has the class [rotate-180]. *)
Record Item : Set := mkItem {
  eventDate : option string;
  isLive : option string;
  statusBoxes : list StatusBox;
  active : bool;
  maxHeight : option string;
  scrollHeight : Z;
  rotated : bool
}.

(** What a pass over the items reads and writes besides the items: the
    number of readings of the clock taken so far, and the content of the
    countdown elements of the document by their id. *)
Record Env : Type := mkEnv {
  reads : nat;
  countdowns : gmap string string
}.

(** The page: the accordion items in document order, the rest of the
    document, and the items that were asked to scroll into view, an item
    being named by its position. *)
Record Page : Type := mkPage {
  items : list Item;
  env : Env;
  scrolled : list nat
}.

(** Computations that read the clock and write countdown elements. *)
Definition M (A : Type) : Type := Env → A * Env.

#[export] Instance M_ret : MRet M := λ A a e, (a, e).

#[export] Instance M_bind : MBind M := λ A B f c e, let '(a, e') := c e in f a e'.

(** [classList.remove(...)] and [classList.add(c)] *)
Definition classRemove (cs : list string) (l : list string) : list string :=
  filter (λ c, c ∉ cs) l.

Definition classAdd (c : string) (l : list string) : list string :=
  if decide (c ∈ l) then l else l ++ [c].

(** [s.replace(/[^a-zA-Z0-9]/g, '-')], on a string of ASCII characters as
    the ISO 8601 dates of the events are: one character of the model is
    one character of the script's string only there, see [isAscii]. *)
Definition isAlnum (c : ascii) : bool :=
  let n := nat_of_ascii c in
  ((48 <=? n) && (n <=? 57) || (65 <=? n) && (n <=? 90) || (97 <=? n) && (n <=? 122))%nat.

Fixpoint replaceNonAlnum (s : string) : string :=
  match s with
  | EmptyString => EmptyString
  | String c s' => String (if isAlnum c then c else "-"%char) (replaceNonAlnum s')
  end.

Definition countdownId (eventDate : string) : string :=
  "countdown-" +:+ replaceNonAlnum eventDate.

(** The strings all of whose characters are ASCII characters. *)
Definition isAscii (s : string) : Prop :=
  Forall (λ c, (nat_of_ascii c < 128)%nat) (list_ascii_of_string s).

(** [!eventDate]: the attribute is absent or empty. *)
Definition noDate (eventDate : option string) : bool :=
  match eventDate with
  | None => true
  | Some d => bool_decide (d = EmptyString)
  end.

(** What the callback of [updateAccordionHeaders] does to one status box. *)
Definition updateStatusBox (r : EventStatus) (statusBox : StatusBox) : StatusBox :=
  let cl := classRemove ["live_event"; "upcoming_event"; "passed_event"] (classList statusBox) in
  {| innerHTML :=
       if decide (status r = "passed") then "Už prebehlo"
       else if decide (status r = "live") then "Naživo"
       else timerText r;
     classList :=
       if decide (status r = "live") then classAdd "live_event" cl
       else if decide (status r = "passed") then classAdd "passed_event" cl
       else classAdd "upcoming_event" cl |}.

(** The update of the countdown element of an event, when the document
    has one. *)
Definition updateCountdown (eventDate : string) (r : EventStatus) : M unit := λ e,
  let id := countdownId eventDate in
  match countdowns e !! id with
  | Some _ =>
      if decide (status r = "live") then
        (tt, {| reads := reads e; countdowns := <[id := "Naživo!"]> (countdowns e) |})
      else if decide (status r = "upcoming") then
        (tt, {| reads := reads e; countdowns := <[id := timerText r]> (countdowns e) |})
      else (tt, e)
  | None => (tt, e)
  end.

(** An item after the writes of the callback of [updateAccordionHeaders]:
    the data attribute [isLive] and the status boxes. *)
Definition writeItem (item : Item) (isLive' : string) (boxes : list StatusBox) : Item :=
  {| eventDate := eventDate item;
     isLive := Some isLive';
     statusBoxes := boxes;
     active := active item;
     maxHeight := maxHeight item;
     scrollHeight := scrollHeight item;
     rotated := rotated item |}.

Section Driver.

Context `{Platform}.

(** [new Date().getTime()] *)
Definition getTime : M Z := λ e,
  (clock (reads e), {| reads := S (reads e); countdowns := countdowns e |}).

(** [new Date(eventDate).getTime()], for a data attribute that may be absent *)
Definition timeOf (eventDate : option string) : num :=
  match eventDate with
  | Some d => parseDate d
  | None => NaN
  end.

Definition getEventStatus (eventISODate : string) : M EventStatus :=
  now ← getTime;
  mret (getEventStatusAt now (parseDate eventISODate)).

(** The callback of the [forEach] of [updateAccordionHeaders], on the item
    at position [i]; [now] is the reading the pass took at its start and
    [firstLiveEventItem] the variable of that name.  The list of status
    boxes is an object, so that the second half of the guard never
    holds.  Past the guard the attribute is a string that is not empty. *)
Definition processItem (now : Z) (i : nat) (item : Item) (firstLiveEventItem : option nat)
  : M (Item * option nat) :=
  let eventTime := timeOf (eventDate item) in
  if noDate (eventDate item) then mret (item, firstLiveEventItem)
  else
    let eventDate := default EmptyString (eventDate item) in
    r ← getEventStatus eventDate;
    let isTemporarilyLive := isTemporarilyLive now eventTime in
    let item' :=
      writeItem item (if isTemporarilyLive then "true" else "false")
        (updateStatusBox r <$> statusBoxes item) in
    let firstLiveEventItem' :=
      if bool_decide (status r = "live") && bool_decide (firstLiveEventItem = None)
      then Some i else firstLiveEventItem in
    _ ← updateCountdown eventDate r;
    mret (item', firstLiveEventItem').

(** The [forEach] over the items from position [i] on. *)
Fixpoint forEachItem (now : Z) (i : nat) (l : list Item) (firstLiveEventItem : option nat)
  : M (list Item * option nat) :=
  match l with
  | [] => mret ([], firstLiveEventItem)
  | item :: l' =>
      '(item', first') ← processItem now i item firstLiveEventItem;
      '(l'', first'') ← forEachItem now (S i) l' first';
      mret (item' :: l'', first'')
  end.

Definition updateAccordionHeaders (l : list Item) : M (list Item * option nat) :=
  now ← getTime;
  forEachItem now 0 l None.

(** The status each item is classified with in a pass whose next reading
    of the clock is the [r]-th: an item without a date is not classified
    and takes no reading. *)
Fixpoint classifications (r : nat) (l : list Item) : list (option string) :=
  match l with
  | [] => []
  | item :: l' =>
      if noDate (eventDate item) then None :: classifications r l'
      else Some (status (getEventStatusAt (clock r) (timeOf (eventDate item))))
             :: classifications (S r) l'
  end.

(** The position of the first item classified live, if any. *)
Definition firstLive (cls : list (option string)) : option nat :=
  fst <$> list_find (λ c, c = Some "live") cls.

(** ** Accordion logic *)

(** An item loses the class [active], its content the [max-height] and
    its icon the rotation. *)
Definition collapse (item : Item) : Item :=
  {| eventDate := eventDate item;
     isLive := isLive item;
     statusBoxes := statusBoxes item;
     active := false;
     maxHeight := None;
     scrollHeight := scrollHeight item;
     rotated := false |}.

(** An item gets the class [active], its content a [max-height] of its
    [scrollHeight] and 30 pixels, and its icon the rotation. *)
Definition expand (item : Item) : Item :=
  {| eventDate := eventDate item;
     isLive := isLive item;
     statusBoxes := statusBoxes item;
     active := true;
     maxHeight := Some (Js.toString (scrollHeight item + 30)%Z +:+ "px");
     scrollHeight := scrollHeight item;
     rotated := true |}.

(** [toggleAccordion(item, forceOpen)] for the item at position [i]. *)
Definition toggleAccordion (i : nat) (forceOpen : bool) (p : Page) : Page :=
  match items p !! i with
  | Some item =>
      let isExpanded := if forceOpen then false else active item in
      let closed :=
        if negb isExpanded || forceOpen
        then (λ activeItem, if active activeItem then collapse activeItem else activeItem)
               <$> items p
        else items p in
      if forceOpen || negb isExpanded then
        {| items := alter expand i closed;
           env := env p;
           scrolled := if forceOpen then scrolled p ++ [i] else scrolled p |}
      else
        {| items := alter collapse i closed;
           env := env p;
           scrolled := scrolled p |}
  | None => p
  end.

(** ** Initialization

    The handler of [DOMContentLoaded], on the state of the model: the
    first pass over the items and then, from the timer it sets, the
    forced opening of the first live item.  The clocks of the page and
    the click handlers it sets up write nothing of this state. *)
Definition onDOMContentLoaded (p : Page) : Page :=
  let '((l, initialLiveEvent), e) := updateAccordionHeaders (items p) (env p) in
  let p' := {| items := l; env := e; scrolled := scrolled p |} in
  match initialLiveEvent with
  | Some i => toggleAccordion i true p'
  | None => p'
  end.

End Driver.

(** Two items agree on what [toggleAccordion] writes. *)
Definition sameAccordion (a b : Item) : Prop :=
  active a = active b ∧ maxHeight a = maxHeight b
  ∧ scrollHeight a = scrollHeight b ∧ rotated a = rotated b.

(** ** A sample platform and page

    A clock that stands at 2025-11-15T09:00:00Z, and of the parsing of
    dates the one string the examples use; [soon] is not a date. *)
Definition sampleStart : Z := 1763197200000.

Definition sampleDate : string := "2025-11-15T09:00:00Z".

Definition samplePlatform : Platform :=
  {| clock := λ _, sampleStart;
     parseDate := λ s, if decide (s = sampleDate) then Num sampleStart else NaN |}.


(** A clock that moves: one millisecond before the live threshold of
    the sample event at the first reading, at the threshold at the next
    two, and at the start from then on. *)
Definition sampleMovingPlatform : Platform :=
  {| clock := λ k, match k with
                   | O => sampleStart - 180001
                   | 1%nat | 2%nat => sampleStart - 180000
                   | _ => sampleStart
                   end;
     parseDate := λ s, if decide (s = sampleDate) then Num sampleStart else NaN |}.

(** The same, seven hours later. *)
Definition samplePlatformLate : Platform :=
  {| clock := λ _, sampleStart + 7 * 60 * 60 * 1000;
     parseDate := λ s, if decide (s = sampleDate) then Num sampleStart else NaN |}.

Definition sampleBox : StatusBox :=
  {| innerHTML := EmptyString; classList := ["status-box"] |}.

Definition sampleItem (eventDate : option string) (active : bool) : Item :=
  {| eventDate := eventDate;
     isLive := None;
     statusBoxes := [sampleBox];
     active := active;
     maxHeight := None;
     scrollHeight := 120;
     rotated := active |}.

Definition sampleEnv : Env := {| reads := 0; countdowns := ∅ |}.

(** A page whose first item is open and has a date that is none, and
    whose second and third items are live. *)
Definition samplePage : Page :=
  {| items := [sampleItem (Some "soon") true; sampleItem (Some sampleDate) false;
               sampleItem (Some sampleDate) false];
     env := sampleEnv;
     scrolled := [] |}.

(** ** The clocks of the page *)

Definition TOKYO_TIMEZONE : string := "Asia/Tokyo".

Definition BRATISLAVA_TIMEZONE : string := "Europe/Bratislava".

(** A value in the options object given to [toLocaleString]. *)
Inductive OptionValue : Set :=
| OStr (s : string)
| OBool (b : bool).

(** What the script asks of the browser about the display of time:
    [new Date(t).toISOString()], and [date.toLocaleString(locale, options)]
    for a date of a given time value. *)
Class Locale : Type := {
  toISOString : Z → string;
  toLocaleString : num → string → gmap string OptionValue → string
}.

(** The options object of [formatTime]: the three time fields, [hour12]
    and the time zone, and with [includeDate] the three date fields put
    in and the three time fields deleted. *)
Definition formatOptions (timeZone : string) (includeDate : bool) : gmap string OptionValue :=
  let options : gmap string OptionValue :=
    <["timeZone" := OStr timeZone]> (<["hour12" := OBool false]>
      (<["second" := OStr "2-digit"]> (<["minute" := OStr "2-digit"]>
        (<["hour" := OStr "2-digit"]> ∅)))) in
  if includeDate then
    delete "second" (delete "minute" (delete "hour"
      (<["day" := OStr "numeric"]> (<["month" := OStr "long"]>
        (<["year" := OStr "numeric"]> options)))))
  else options.

(** How a handler ends: it runs to its end or an exception leaves it. *)
Inductive Outcome : Set :=
| Completed
| Thrown.

(** [document.getElementById(id).textContent = v], on the text of the
    elements of the document by their id: a [TypeError] when there is no
    such element. *)
Definition setTextContent (id v : string) (texts : gmap string string)
  : option (gmap string string) :=
  match texts !! id with
  | Some _ => Some (<[id := v]> texts)
  | None => None
  end.

Section Clocks.

Context `{Platform} `{Locale}.

(** [formatTime(isoString, timeZone, includeDate)]: the date is that of
    the string, or the present one when the string is absent or empty. *)
Definition formatTime (isoString : option string) (timeZone : string) (includeDate : bool)
  : M string :=
  date ← (if noDate isoString then now ← getTime; mret (Num now)
          else mret (timeOf isoString));
  mret (toLocaleString date "sk-SK" (formatOptions timeZone includeDate)).

(** [updateClocks()]: the four writes in their order, each value computed
    before its element is written; the first element that is missing
    ends the function with an exception. *)
Definition updateClocks (texts : gmap string string) : M (gmap string string * Outcome) :=
  t ← getTime;
  let now := Some (toISOString t) in
  v1 ← formatTime now TOKYO_TIMEZONE false;
  match setTextContent "japan-time" v1 texts with
  | None => mret (texts, Thrown)
  | Some texts1 =>
      v2 ← formatTime now TOKYO_TIMEZONE true;
      match setTextContent "japan-date" v2 texts1 with
      | None => mret (texts1, Thrown)
      | Some texts2 =>
          v3 ← formatTime now BRATISLAVA_TIMEZONE false;
          match setTextContent "slovakia-time" v3 texts2 with
          | None => mret (texts2, Thrown)
          | Some texts3 =>
              v4 ← formatTime now BRATISLAVA_TIMEZONE true;
              match setTextContent "slovakia-date" v4 texts3 with
              | None => mret (texts3, Thrown)
              | Some texts4 => mret (texts4, Completed)
              end
          end
      end
  end.

(** ** The life of the page

    The whole handler of [DOMContentLoaded]: the clocks are written
    first, and an exception there leaves the handler before anything
    else is done; otherwise the click handlers and the two intervals are
    set up and the first pass and the opening of the first live item
    follow as in [onDOMContentLoaded]. *)
Definition handleDOMContentLoaded (texts : gmap string string) (p : Page)
  : gmap string string * Page * Outcome :=
  let '((texts', outcome), e) := updateClocks texts (env p) in
  let p' := {| items := items p; env := e; scrolled := scrolled p |} in
  match outcome with
  | Completed => (texts', onDOMContentLoaded p', Completed)
  | Thrown => (texts', p', Thrown)
  end.

(** What happens after the load: a click on the header of the item at a
    position, set up by [setupAccordions], and the callbacks of the two
    intervals. *)
Inductive Event : Set :=
| Click (i : nat)
| HeadersTick
| ClocksTick.

(** The handler of an event.  A click toggles the item without forcing
    it; an interval callback drops what its function returns, and an
    exception in it ends that callback only. *)
Definition step (st : gmap string string * Page) (ev : Event) : gmap string string * Page :=
  let '(texts, p) := st in
  match ev with
  | Click i => (texts, toggleAccordion i false p)
  | HeadersTick =>
      let '((l, _), e) := updateAccordionHeaders (items p) (env p) in
      (texts, {| items := l; env := e; scrolled := scrolled p |})
  | ClocksTick =>
      let '((texts', _), e) := updateClocks texts (env p) in
      (texts', {| items := items p; env := e; scrolled := scrolled p |})
  end.

Definition run (evs : list Event) (st : gmap string string * Page)
  : gmap string string * Page :=
  foldl step st evs.

(** The load and the events that follow it. *)
Definition lifetime (evs : list Event) (texts : gmap string string) (p : Page)
  : gmap string string * Page :=
  run evs (handleDOMContentLoaded texts p).1.

End Clocks.

(** The ids of the four elements of the clocks. *)
Definition clockIds : list string :=
  ["japan-time"; "japan-date"; "slovakia-time"; "slovakia-date"].

(** ** Invariants of the accordion *)

(** The class of a status box for a status. *)
Definition statusClass (s : string) : string := s +:+ "_event".

(** At most one item is open. *)
Definition atMostOneActive (l : list Item) : Prop :=
  ∀ j k a b, l !! j = Some a → l !! k = Some b →
             active a = true → active b = true → j = k.

(** An item looks the way [toggleAccordion] leaves items: open with the
    height of its content and the icon turned, or closed with neither. *)
Definition tidy (item : Item) : Prop :=
  if active item
  then maxHeight item = Some (Js.toString (scrollHeight item + 30)%Z +:+ "px")
       ∧ rotated item = true
  else maxHeight item = None ∧ rotated item = false.

(** Two items agree on what the pass over the items writes and on the
    date it reads. *)
Definition sameEvent (a b : Item) : Prop :=
  eventDate a = eventDate b ∧ isLive a = isLive b ∧ statusBoxes a = statusBoxes b.

(** The closing of the open items in [toggleAccordion]. *)
Definition closeActive (activeItem : Item) : Item :=
  if active activeItem then collapse activeItem else activeItem.

Section Frozen.

Context `{Platform}.

(** What the pass makes of an item, and of the countdown elements for
    it, when every reading of the clock gives [t]. *)
Definition processedAt (t : Z) (item : Item) : Item :=
  if noDate (eventDate item) then item
  else
    writeItem item
      (if isTemporarilyLive t (timeOf (eventDate item)) then "true" else "false")
      (updateStatusBox (getEventStatusAt t (timeOf (eventDate item))) <$> statusBoxes item).

Definition countdownsAt (t : Z) (c : gmap string string) (item : Item) : gmap string string :=
  if noDate (eventDate item) then c
  else
    countdowns (updateCountdown (default EmptyString (eventDate item))
                  (getEventStatusAt t (timeOf (eventDate item)))
                  {| reads := 0; countdowns := c |}).2.

(** The one write the pass may make to a countdown element for an item,
    as the id and the new content, and its effect on the elements: only
    an element that is there is written. *)
Definition countdownWrite (t : Z) (item : Item) : option (string * string) :=
  if noDate (eventDate item) then None
  else
    let r := getEventStatusAt t (timeOf (eventDate item)) in
    let id := countdownId (default EmptyString (eventDate item)) in
    if decide (status r = "live") then Some (id, "Naživo!")
    else if decide (status r = "upcoming") then Some (id, timerText r)
    else None.

End Frozen.

Definition putIfPresent (c : gmap string string) (w : option (string * string))
  : gmap string string :=
  match w with
  | Some (id, v) => match c !! id with Some _ => <[id := v]> c | None => c end
  | None => c
  end.

(** The states of the page that differ only in what is shown: the dates
    and the heights of the contents are the same, and so are the sets of
    the elements. *)
Definition sameDocument (st st' : gmap string string * Page) : Prop :=
  dom st'.1 = dom st.1
  ∧ dom (countdowns (env st'.2)) = dom (countdowns (env st.2))
  ∧ Forall2 (λ a b, eventDate a = eventDate b ∧ scrollHeight a = scrollHeight b)
      (items st.2) (items st'.2).

(** A locale for the examples: the formatted text names the time value
    and the time zone and tells a date from a time of day. *)
Definition sampleLocale : Locale :=
  {| toISOString := λ _, sampleDate;
     toLocaleString := λ date _ options,
       Js.toString date +:+ "@"
       +:+ match options !! "timeZone" with Some (OStr z) => z | _ => EmptyString end
       +:+ match options !! "hour" with Some _ => " time" | None => " date" end |}.

Definition sampleTexts : gmap string string :=
  {[ "japan-time" := EmptyString; "japan-date" := EmptyString;
     "slovakia-time" := EmptyString; "slovakia-date" := EmptyString ]}.

(** * Properties of the classifier *)

Section Classifier.

Implicit Types (now start : Z) (eventTime : num).

(** The three branches of the classifier on a date that was parsed. *)
Lemma getEventStatusAt_Num now start :
  getEventStatusAt now start =
    if start + LIVE_DURATION_MS - now <? 0 then
      {| status := "passed"; timerText := "Už prebehlo" |}
    else if start - now <=? LIVE_THRESHOLD_MS then
      {| status := "live"; timerText := "Naživo" |}
    else
      {| status := "upcoming"; timerText := countdownText (remaining (start - now)) |}.
Proof. reflexivity. Qed.

(** On a date that was not parsed both tests fail. *)
Lemma getEventStatusAt_NaN now :
  getEventStatusAt now NaN =
    {| status := "upcoming"; timerText := countdownText (remaining NaN) |}.
Proof. reflexivity. Qed.

Lemma status_passed_iff now start :
  status (getEventStatusAt now start) = "passed" ↔ start + LIVE_DURATION_MS < now.
Proof.
  rewrite getEventStatusAt_Num.
  destruct (Z.ltb_spec (start + LIVE_DURATION_MS - now) 0);
    [|destruct (Z.leb_spec (start - now) LIVE_THRESHOLD_MS)]; simpl;
    split; (discriminate || lia || reflexivity).
Qed.

Lemma status_live_iff now start :
  status (getEventStatusAt now start) = "live" ↔
  now ≤ start + LIVE_DURATION_MS ∧ start - now ≤ LIVE_THRESHOLD_MS.
Proof.
  rewrite getEventStatusAt_Num.
  destruct (Z.ltb_spec (start + LIVE_DURATION_MS - now) 0);
    [|destruct (Z.leb_spec (start - now) LIVE_THRESHOLD_MS)]; simpl;
    split; (discriminate || lia || reflexivity).
Qed.

Lemma status_upcoming_iff now start :
  status (getEventStatusAt now start) = "upcoming" ↔ LIVE_THRESHOLD_MS < start - now.
Proof.
  rewrite getEventStatusAt_Num.
  destruct (Z.ltb_spec (start + LIVE_DURATION_MS - now) 0) as [Hp|Hp];
    [|destruct (Z.leb_spec (start - now) LIVE_THRESHOLD_MS)]; simpl;
    split; try (discriminate || reflexivity || lia).
  unfold LIVE_THRESHOLD_MS, LIVE_DURATION_MS in *. lia.
Qed.

(** The status is always one of the three. *)
Lemma status_cases now eventTime :
  let s := status (getEventStatusAt now eventTime) in
  s = "upcoming" ∨ s = "live" ∨ s = "passed".
Proof.
  destruct eventTime as [start|]; [|left; reflexivity].
  rewrite getEventStatusAt_Num.
  destruct (_ <? _); [|destruct (_ <=? _)]; simpl; auto.
Qed.

(** C1.  For every start instant and every instant [now] the classifier
    returns a status, and that status is exactly one of upcoming, live
    and passed. *)
Theorem status_exactly_one now start :
  let s := status (getEventStatusAt now start) in
  (s = "upcoming" ∧ s ≠ "live" ∧ s ≠ "passed")
  ∨ (s = "live" ∧ s ≠ "upcoming" ∧ s ≠ "passed")
  ∨ (s = "passed" ∧ s ≠ "upcoming" ∧ s ≠ "live").
Proof.
  intros s. destruct (status_cases now start) as [E|[E|E]]; fold s in E; rewrite E.
  - left. repeat split; discriminate.
  - right; left. repeat split; discriminate.
  - right; right. repeat split; discriminate.
Qed.

(** C2, as the code has it.  Once [now] is later than the end of the live
    window, [startInstant + liveDuration], the status is passed, whatever
    the distance to the start; at the end of the window itself, for
    every start, the status is still live. *)
Theorem passed_after_live_window now start :
  (now > start + LIVE_DURATION_MS → status (getEventStatusAt now start) = "passed")
  ∧ status (getEventStatusAt (start + LIVE_DURATION_MS) start) = "live".
Proof.
  split.
  - intros Hlate. apply status_passed_iff. lia.
  - apply status_live_iff. unfold LIVE_THRESHOLD_MS, LIVE_DURATION_MS. lia.
Qed.

(** C3.  Within the threshold of the start and before the end of the live
    window the status is live. *)
Theorem live_within_window now start :
  start - now ≤ LIVE_THRESHOLD_MS →
  now < start + LIVE_DURATION_MS →
  status (getEventStatusAt now start) = "live".
Proof. intros Hnear Hopen. apply status_live_iff. lia. Qed.

(** C4.  At [start - liveThreshold] the status is live; at
    [start + liveDuration] it is not passed; one millisecond later it is
    passed. *)
Theorem status_boundaries start :
  status (getEventStatusAt (start - LIVE_THRESHOLD_MS) start) = "live"
  ∧ status (getEventStatusAt (start + LIVE_DURATION_MS) start) ≠ "passed"
  ∧ status (getEventStatusAt (start + LIVE_DURATION_MS + 1) start) = "passed".
Proof.
  split; [|split].
  - apply status_live_iff. unfold LIVE_THRESHOLD_MS, LIVE_DURATION_MS. lia.
  - rewrite status_passed_iff. lia.
  - apply status_passed_iff. lia.
Qed.

(** C5.  When the status is upcoming, the start is more than the
    threshold away, the text is the countdown of the four components of
    the distance, and these are whole numbers found by floor division:
    days, hours from 0 to 23, minutes and seconds from 0 to 59, which put
    together give the whole seconds of the distance. *)
Theorem upcoming_remaining_decomposition now start :
  status (getEventStatusAt now start) = "upcoming" →
  ∃ d h m s : Z,
    start - now > LIVE_THRESHOLD_MS
    ∧ remaining (start - now) = {| days := d; hours := h; minutes := m; seconds := s |}
    ∧ timerText (getEventStatusAt now start)
      = countdownText {| days := d; hours := h; minutes := m; seconds := s |}
    ∧ d = (start - now) / 86400000 ∧ 0 ≤ d
    ∧ 0 ≤ h ≤ 23 ∧ 0 ≤ m ≤ 59 ∧ 0 ≤ s ≤ 59
    ∧ d * 86400 + h * 3600 + m * 60 + s = (start - now) / 1000.
Proof.
  intros Hup. pose proof Hup as Hfar. apply status_upcoming_iff in Hfar.
  assert (Hpos : 0 ≤ start - now) by (unfold LIVE_THRESHOLD_MS in Hfar; lia).
  set (dist := start - now) in *.
  exists (dist / 86400000), (dist mod 86400000 / 3600000),
    (dist mod 3600000 / 60000), (dist mod 60000 / 1000).
  assert (Hrem : remaining dist =
    {| days := dist / 86400000; hours := dist mod 86400000 / 3600000;
       minutes := dist mod 3600000 / 60000; seconds := dist mod 60000 / 1000 |}).
  { unfold remaining; simpl. rewrite !Z.rem_mod_nonneg by lia. reflexivity. }
  split; [lia|]. split; [exact Hrem|]. split.
  { rewrite <- Hrem. rewrite getEventStatusAt_Num in Hup |- *. fold dist in Hup |- *.
    destruct (_ <? _); [discriminate|]. destruct (_ <=? _); [discriminate|]. reflexivity. }
  split; [reflexivity|].
  clearbody dist. clear Hrem Hup Hfar.
  repeat split; Z.to_euclidean_division_equations; lia.
Qed.

(** C6.  For a fixed start the status only moves forward as [now] grows:
    from upcoming to live to passed, never back. *)
Theorem status_monotone start now1 now2 :
  now1 ≤ now2 →
  (statusRank (status (getEventStatusAt now1 start))
     ≤ statusRank (status (getEventStatusAt now2 start)))%nat.
Proof.
  intros Hle.
  destruct (status_cases now1 start) as [E1|[E1|E1]];
    destruct (status_cases now2 start) as [E2|[E2|E2]];
    simpl in E1, E2; rewrite E1, E2; try (vm_compute; lia); exfalso.
  - apply status_live_iff in E1. apply status_upcoming_iff in E2. lia.
  - apply status_passed_iff in E1. apply status_upcoming_iff in E2.
    unfold LIVE_THRESHOLD_MS, LIVE_DURATION_MS in *. lia.
  - apply status_passed_iff in E1. apply status_live_iff in E2. lia.
Qed.

(** Four minutes before the start the event is upcoming, with four
    minutes on the countdown; one minute before and five hours after it
    is live; seven hours after it has passed. *)
Example status_four_minutes_before start :
  getEventStatusAt (start - 4 * 60 * 1000) start =
    {| status := "upcoming";
       timerText := "Ostáva: " +:+ spanOpen +:+ "00:04:00</span>" |}.
Proof.
  rewrite getEventStatusAt_Num.
  replace (start + LIVE_DURATION_MS - (start - 4 * 60 * 1000) <? 0) with false
    by (symmetry; apply Z.ltb_ge; unfold LIVE_DURATION_MS; lia).
  unfold Js.sub. replace (start - (start - 4 * 60 * 1000)) with 240000 by lia. reflexivity.
Qed.

Example status_one_minute_before start :
  status (getEventStatusAt (start - 60 * 1000) start) = "live".
Proof. apply status_live_iff. unfold LIVE_THRESHOLD_MS, LIVE_DURATION_MS. lia. Qed.

Example status_five_hours_after start :
  status (getEventStatusAt (start + 5 * 60 * 60 * 1000) start) = "live".
Proof. apply status_live_iff. unfold LIVE_THRESHOLD_MS, LIVE_DURATION_MS. lia. Qed.

Example status_seven_hours_after start :
  status (getEventStatusAt (start + 7 * 60 * 60 * 1000) start) = "passed".
Proof. apply status_passed_iff. unfold LIVE_DURATION_MS. lia. Qed.

(** The condition of the data attribute is that of the live status; the
    date need not have been parsed. *)
Lemma isTemporarilyLive_status now eventTime :
  isTemporarilyLive now eventTime = true ↔ status (getEventStatusAt now eventTime) = "live".
Proof.
  destruct eventTime as [start|]; [|split; discriminate].
  rewrite status_live_iff. unfold isTemporarilyLive, Js.ge; simpl.
  rewrite andb_true_iff, !Z.leb_le. lia.
Qed.

End Classifier.

(** * Properties of the pass over the items *)

Section DriverProperties.

Context `{Platform}.

Implicit Types (now : Z) (i : nat) (item : Item) (first : option nat) (e : Env)
  (l : list Item) (d : string) (r : EventStatus).

(** [getEventStatus] takes one reading of the clock and classifies. *)
Lemma getEventStatus_run d e :
  getEventStatus d e =
    (getEventStatusAt (clock (reads e)) (parseDate d),
     {| reads := S (reads e); countdowns := countdowns e |}).
Proof. reflexivity. Qed.

Lemma updateCountdown_reads d r e : reads (updateCountdown d r e).2 = reads e.
Proof.
  unfold updateCountdown. destruct (countdowns e !! countdownId d); [|reflexivity].
  repeat case_decide; reflexivity.
Qed.

Lemma timeOf_dated item :
  noDate (eventDate item) = false →
  parseDate (default EmptyString (eventDate item)) = timeOf (eventDate item).
Proof. destruct (eventDate item); [reflexivity|discriminate]. Qed.

(** An item without a date is left as it is. *)
Lemma processItem_noDate now i item first e :
  noDate (eventDate item) = true →
  processItem now i item first e = ((item, first), e).
Proof. intros Hno. unfold processItem. rewrite Hno. reflexivity. Qed.

(** An item with a date, parsed or not, is classified at the next reading
    of the clock and rewritten. *)
Lemma processItem_dated now i item first e :
  noDate (eventDate item) = false →
  let d := default EmptyString (eventDate item) in
  let r := getEventStatusAt (clock (reads e)) (timeOf (eventDate item)) in
  processItem now i item first e =
    ((writeItem item (if isTemporarilyLive now (timeOf (eventDate item))
                      then "true" else "false")
        (updateStatusBox r <$> statusBoxes item),
      if bool_decide (status r = "live") && bool_decide (first = None)
      then Some i else first),
     (updateCountdown d r {| reads := S (reads e); countdowns := countdowns e |}).2).
Proof.
  intros Hdate d r. unfold processItem. rewrite Hdate.
  unfold mbind, M_bind, mret, M_ret. rewrite getEventStatus_run.
  rewrite (timeOf_dated item Hdate). fold d r.
  destruct (updateCountdown d r _) as [[] e']. reflexivity.
Qed.

Lemma forEachItem_cons now i item l first e :
  forEachItem now i (item :: l) first e =
    let '((item', first'), e') := processItem now i item first e in
    let '((l', first''), e'') := forEachItem now (S i) l first' e' in
    ((item' :: l', first''), e'').
Proof.
  simpl. unfold mbind, M_bind, mret, M_ret.
  destruct (processItem now i item first e) as [[item' first'] e'].
  destruct (forEachItem now (S i) l first' e') as [[l' first''] e'']. reflexivity.
Qed.

(** The pass over a list in two parts is the pass over the first part
    followed, from where it ended, by the pass over the second. *)
Lemma forEachItem_app now l1 l2 : ∀ i first e,
  forEachItem now i (l1 ++ l2) first e =
    let '((l1', first1), e1) := forEachItem now i l1 first e in
    let '((l2', first2), e2) := forEachItem now (i + length l1) l2 first1 e1 in
    ((l1' ++ l2', first2), e2).
Proof.
  induction l1 as [|item l1 IH]; intros i first e.
  - simpl. unfold mret, M_ret. rewrite Nat.add_0_r.
    destruct (forEachItem now i l2 first e) as [[l2' first2] e2]. reflexivity.
  - rewrite <- app_comm_cons, !forEachItem_cons.
    destruct (processItem now i item first e) as [[item' first'] e'].
    rewrite IH. destruct (forEachItem now (S i) l1 first' e') as [[l1' first1] e1].
    simpl length. replace (i + S (length l1))%nat with (S i + length l1)%nat by lia.
    destruct (forEachItem now (S i + length l1) l2 first1 e1) as [[l2' first2] e2].
    reflexivity.
Qed.

(** The pass writes nothing of what [toggleAccordion] writes. *)
Lemma processItem_sameAccordion now i item first e :
  sameAccordion item (processItem now i item first e).1.1.
Proof.
  destruct (noDate (eventDate item)) eqn:Hdate.
  - rewrite processItem_noDate by done. done.
  - rewrite processItem_dated by done. done.
Qed.

Lemma forEachItem_sameAccordion now l : ∀ i first e,
  Forall2 sameAccordion l (forEachItem now i l first e).1.1.
Proof.
  induction l as [|item l IH]; intros i first e; [constructor|].
  rewrite forEachItem_cons.
  pose proof (processItem_sameAccordion now i item first e) as Hitem.
  destruct (processItem now i item first e) as [[item' first'] e'].
  specialize (IH (S i) first' e').
  destruct (forEachItem now (S i) l first' e') as [[l' first''] e''].
  constructor; assumption.
Qed.

Lemma firstLive_cons (c : option string) (cls : list (option string)) :
  firstLive (c :: cls) = if decide (c = Some "live") then Some 0%nat else S <$> firstLive cls.
Proof.
  unfold firstLive. cbn [list_find]. case_decide; [reflexivity|].
  destruct (list_find _ cls) as [[j c']|]; reflexivity.
Qed.

(** The variable [firstLiveEventItem], once set, is kept; while unset it
    takes the position of the first item the pass classifies live. *)
Lemma forEachItem_first now l : ∀ i first e,
  (forEachItem now i l first e).1.2 =
    match first with
    | Some k => Some k
    | None => (λ j, i + j)%nat <$> firstLive (classifications (reads e) l)
    end.
Proof.
  induction l as [|item l IH]; intros i first e.
  - destruct first; reflexivity.
  - rewrite forEachItem_cons. cbn [classifications].
    destruct (noDate (eventDate item)) eqn:Hdate.
    + rewrite processItem_noDate by done.
      specialize (IH (S i) first e).
      destruct (forEachItem now (S i) l first e) as [[l' first''] e'']. simpl in IH |- *.
      rewrite IH. destruct first; [reflexivity|].
      rewrite firstLive_cons, decide_False by discriminate.
      destruct (firstLive _) as [j|]; simpl; [f_equal; lia|reflexivity].
    + rewrite processItem_dated by done. cbv zeta.
      set (r := getEventStatusAt _ _). set (e' := (updateCountdown _ _ _).2).
      assert (He' : reads e' = S (reads e)) by apply updateCountdown_reads.
      set (first' := if _ && _ then _ else _).
      specialize (IH (S i) first' e').
      destruct (forEachItem now (S i) l first' e') as [[l' first''] e'']. simpl in IH |- *.
      rewrite IH, He', firstLive_cons. subst first'. destruct first as [k|].
      * rewrite andb_false_r. reflexivity.
      * rewrite andb_true_r. case_bool_decide as Hlive.
        -- rewrite decide_True by (f_equal; exact Hlive). simpl. by rewrite Nat.add_0_r.
        -- rewrite decide_False by (intros [= ?]; done).
           generalize (firstLive (classifications (S (reads e)) l)).
           intros [j|]; simpl; [f_equal; lia|reflexivity].
Qed.

(** What the pass does to the item at a position is what [classifications]
    records there: an item without a date is left as it is, and an item
    classified with a status has its boxes rewritten for that status. *)
Lemma forEachItem_classified now l : ∀ i first e j item,
  l !! j = Some item →
  ∃ item', (forEachItem now i l first e).1.1 !! j = Some item'
    ∧ match classifications (reads e) l !! j with
      | Some (Some s) =>
          ∃ r, status r = s ∧ statusBoxes item' = updateStatusBox r <$> statusBoxes item
      | Some None => item' = item
      | None => False
      end.
Proof.
  induction l as [|x l IH]; intros i first e j item Hj; [done|].
  rewrite forEachItem_cons. cbn [classifications].
  destruct (noDate (eventDate x)) eqn:Hdate.
  - rewrite processItem_noDate by done.
    specialize (IH (S i) first e).
    destruct (forEachItem now (S i) l first e) as [[l' first''] e''].
    destruct j as [|j]; simpl in Hj |- *.
    + injection Hj as <-. by exists x.
    + by apply IH.
  - rewrite processItem_dated by done. cbv zeta.
    set (r := getEventStatusAt _ _). set (e' := (updateCountdown _ _ _).2).
    assert (He' : reads e' = S (reads e)) by apply updateCountdown_reads.
    set (first' := if _ && _ then _ else _).
    specialize (IH (S i) first' e').
    destruct (forEachItem now (S i) l first' e') as [[l' first''] e''].
    destruct j as [|j]; simpl in Hj |- *.
    + injection Hj as <-. eexists. split; [reflexivity|]. by exists r.
    + rewrite <- He'. by apply IH.
Qed.

Lemma classifications_length l : ∀ k, length (classifications k l) = length l.
Proof.
  induction l as [|item l IH]; intros k; [reflexivity|].
  cbn [classifications]. destruct (noDate _); simpl; by rewrite IH.
Qed.

Lemma firstLive_Some (cls : list (option string)) i :
  firstLive cls = Some i ↔
  cls !! i = Some (Some "live") ∧ ∀ j, (j < i)%nat → cls !! j ≠ Some (Some "live").
Proof.
  unfold firstLive. split.
  - destruct (list_find _ cls) as [[k c]|] eqn:Hfind; [|discriminate].
    intros [= <-]. apply list_find_Some in Hfind as (Hk & -> & Hbefore).
    split; [exact Hk|]. intros j Hj Hlook. by apply (Hbefore j (Some "live")).
  - intros [Hi Hbefore].
    assert (Hfind : list_find (λ c, c = Some "live") cls = Some (i, Some "live")).
    { apply list_find_Some. split; [exact Hi|]. split; [reflexivity|].
      intros j c Hlook Hj ->. by apply (Hbefore j). }
    by rewrite Hfind.
Qed.

Lemma firstLive_None (cls : list (option string)) :
  firstLive cls = None ↔ ∀ j, cls !! j ≠ Some (Some "live").
Proof.
  unfold firstLive. split.
  - destruct (list_find _ cls) as [[k c]|] eqn:Hfind; [discriminate|]. intros _ j Hj.
    apply list_find_None in Hfind. apply list_elem_of_lookup_2 in Hj.
    by apply (proj1 (Forall_forall _ _) Hfind (Some "live")).
  - intros Hnone. destruct (list_find _ cls) as [[k c]|] eqn:Hfind; [|reflexivity].
    apply list_find_Some in Hfind as (Hk & -> & _). by apply Hnone in Hk.
Qed.

(** A forced opening closes every open item, opens the one asked for and
    scrolls to it. *)
Lemma toggleAccordion_force i (p : Page) :
  (i < length (items p))%nat →
  toggleAccordion i true p =
    {| items := alter expand i
                  ((λ activeItem, if active activeItem then collapse activeItem else activeItem)
                     <$> items p);
       env := env p;
       scrolled := scrolled p ++ [i] |}.
Proof.
  intros Hi. unfold toggleAccordion.
  destruct (lookup_lt_is_Some_2 _ _ Hi) as [item ->]. reflexivity.
Qed.

(** C7.  The result of [getEventStatus] is a function of the time value
    of the date and of the reading of the clock alone: two calls that
    agree on these two, in whatever documents and after however many
    readings, return the same status and the same text, and a call writes
    nothing but the count of readings. *)
Theorem getEventStatus_deterministic (d1 d2 : string) (e1 e2 : Env) :
  parseDate d1 = parseDate d2 →
  clock (reads e1) = clock (reads e2) →
  (getEventStatus d1 e1).1 = (getEventStatus d2 e2).1
  ∧ (getEventStatus d1 e1).1 = getEventStatusAt (clock (reads e1)) (parseDate d1)
  ∧ countdowns (getEventStatus d1 e1).2 = countdowns e1.
Proof.
  intros Hdate Hclock. rewrite !getEventStatus_run. simpl.
  rewrite Hdate, Hclock. done.
Qed.

(** C8, as the code has it.  An item whose date attribute is absent or
    empty is skipped: the callback returns before it writes anything, the
    item, the variable [firstLiveEventItem], the clock count and the
    countdown elements are as before, and the pass goes through the items
    before it and after it as it would have anyway. *)
Theorem item_without_date_skipped now i item first e l1 l2 :
  noDate (eventDate item) = true →
  processItem now i item first e = ((item, first), e)
  ∧ forEachItem now i (l1 ++ item :: l2) first e =
      let '((l1', first1), e1) := forEachItem now i l1 first e in
      let '((l2', first2), e2) := forEachItem now (S (i + length l1)) l2 first1 e1 in
      ((l1' ++ item :: l2', first2), e2).
Proof.
  intros Hno. split; [by apply processItem_noDate|].
  rewrite forEachItem_app.
  destruct (forEachItem now i l1 first e) as [[l1' first1] e1].
  rewrite forEachItem_cons, processItem_noDate by done.
  destruct (forEachItem now (S (i + length l1)) l2 first1 e1) as [[l2' first2] e2].
  reflexivity.
Qed.

(** C9.  On load, when some item is classified live in the first pass,
    the first of them in document order is scrolled to and is open, and
    no other item is open; when none is, nothing is scrolled to and no
    item is opened or closed. *)
Theorem load_opens_first_live (p : Page) :
  let cls := classifications (S (reads (env p))) (items p) in
  let p' := onDOMContentLoaded p in
  (∀ i, cls !! i = Some (Some "live") →
        (∀ j, (j < i)%nat → cls !! j ≠ Some (Some "live")) →
        scrolled p' = scrolled p ++ [i]
        ∧ (∃ item, items p' !! i = Some item ∧ active item = true)
        ∧ (∀ j item, items p' !! j = Some item → active item = true → j = i))
  ∧ ((∀ j, cls !! j ≠ Some (Some "live")) →
     scrolled p' = scrolled p ∧ Forall2 sameAccordion (items p) (items p')).
Proof.
  intros cls p'. subst p'. unfold onDOMContentLoaded, updateAccordionHeaders.
  unfold mbind, M_bind, getTime.
  set (now := clock (reads (env p))). set (e1 := {| reads := _; countdowns := _ |}).
  pose proof (forEachItem_first now (items p) 0 None e1) as Hfirst.
  pose proof (forEachItem_sameAccordion now (items p) 0 None e1) as Hsame.
  destruct (forEachItem now 0 (items p) None e1) as [[l initialLiveEvent] e2].
  simpl in Hfirst, Hsame. fold cls in Hfirst. split.
  - intros i Hi Hbefore.
    assert (Hfl : firstLive cls = Some i) by (by apply firstLive_Some).
    rewrite Hfl in Hfirst. simpl in Hfirst. subst initialLiveEvent.
    assert (Hlen : (i < length l)%nat).
    { rewrite <- (Forall2_length _ _ _ Hsame).
      apply lookup_lt_Some in Hi. subst cls. by rewrite classifications_length in Hi. }
    rewrite toggleAccordion_force by exact Hlen. simpl.
    split; [reflexivity|]. split.
    + destruct (lookup_lt_is_Some_2 _ _ Hlen) as [item Hitem].
      eexists. rewrite list_lookup_alter_eq, list_lookup_fmap, Hitem. simpl.
      split; reflexivity.
    + intros j item Hj Hactive. destruct (decide (j = i)) as [|Hne]; [done|].
      rewrite list_lookup_alter_ne, list_lookup_fmap in Hj by done.
      destruct (l !! j) as [item0|]; [|discriminate]. simpl in Hj.
      injection Hj as <-. destruct (active item0) eqn:Ha; simpl in Hactive; congruence.
  - intros Hnone.
    assert (Hfl : firstLive cls = None) by (by apply firstLive_None).
    rewrite Hfl in Hfirst. simpl in Hfirst. subst initialLiveEvent. simpl. done.
Qed.

Lemma classRemove_not_elem (cs l : list string) (c : string) :
  c ∈ cs → c ∉ classRemove cs l.
Proof. unfold classRemove. rewrite list_elem_of_filter. tauto. Qed.

Lemma elem_of_classAdd (c c' : string) (l : list string) :
  c' ∈ classAdd c l ↔ c' = c ∨ c' ∈ l.
Proof.
  unfold classAdd. case_decide.
  - split; [tauto|]. intros [->|]; done.
  - rewrite elem_of_app, list_elem_of_singleton. tauto.
Qed.

(** A status box has the class [live_event] after its update exactly when
    the status was live. *)
Lemma updateStatusBox_live r (statusBox : StatusBox) :
  "live_event" ∈ classList (updateStatusBox r statusBox) ↔ status r = "live".
Proof.
  unfold updateStatusBox; simpl.
  assert (Hgone : "live_event" ∉
    classRemove ["live_event"; "upcoming_event"; "passed_event"] (classList statusBox)).
  { apply classRemove_not_elem. set_solver. }
  destruct (decide (status r = "live")) as [Hlive|Hlive].
  - rewrite elem_of_classAdd. split; [done|]. intros _. by left.
  - destruct (decide (status r = "passed")); rewrite elem_of_classAdd;
      (split; [intros [Heq|Hin]; [discriminate Heq|contradiction]|contradiction]).
Qed.

(** C10, as the code has it.  The condition of the data attribute holds
    exactly when the classifier, at the same [now], returns live.  The
    pass takes its [now] in one reading of the clock and the classifier
    takes another for each item: an item with a date gets the attribute
    [true] exactly when the classifier returns live at the reading of
    the pass, and its status boxes get the class of a live event exactly
    when it returns live at the reading of the item.  So when the two
    readings are the same, the attribute is [true] exactly when the
    status shown is live. *)
Theorem isLive_attribute_iff_live now i item first e :
  (∀ eventTime,
     isTemporarilyLive now eventTime = true ↔ status (getEventStatusAt now eventTime) = "live")
  ∧ (noDate (eventDate item) = false →
     clock (reads e) = now →
     let item' := (processItem now i item first e).1.1 in
     let r := (getEventStatus (default EmptyString (eventDate item)) e).1 in
     (isLive item' = Some "true" ↔ status r = "live")
     ∧ (isLive item' = Some "false" ↔ status r ≠ "live")
     ∧ Forall (λ statusBox,
         "live_event" ∈ classList statusBox ↔ isLive item' = Some "true")
         (statusBoxes item'))
  ∧ (noDate (eventDate item) = false →
     let item' := (processItem now i item first e).1.1 in
     (isLive item' = Some "true"
      ↔ status (getEventStatusAt now (timeOf (eventDate item))) = "live")
     ∧ Forall (λ statusBox,
         "live_event" ∈ classList statusBox
         ↔ status (getEventStatusAt (clock (reads e)) (timeOf (eventDate item))) = "live")
         (statusBoxes item')).
Proof.
  split; [intros eventTime; apply isTemporarilyLive_status|].
  assert (Hattr : ∀ t, Some (if isTemporarilyLive t (timeOf (eventDate item))
                             then "true" else "false") = Some "true"
                       ↔ status (getEventStatusAt t (timeOf (eventDate item))) = "live").
  { intros t. rewrite <- isTemporarilyLive_status.
    destruct (isTemporarilyLive _ _); split; (done || discriminate). }
  split.
  - intros Hdate Hclock. rewrite processItem_dated, getEventStatus_run by done.
    cbv zeta. cbn [fst snd]. unfold writeItem. cbn [isLive statusBoxes].
    rewrite (timeOf_dated item Hdate), Hclock.
    set (r := getEventStatusAt now _).
    pose proof (isTemporarilyLive_status now (timeOf (eventDate item))) as Hiff. fold r in Hiff.
    split; [apply Hattr|]. split.
    + rewrite <- Hiff. destruct (isTemporarilyLive _ _); split; (done || discriminate).
    + rewrite Forall_fmap. apply Forall_forall. intros statusBox _. cbn beta.
      unfold compose. rewrite updateStatusBox_live. symmetry. apply Hattr.
  - intros Hdate. rewrite processItem_dated by done.
    cbv zeta. cbn [fst snd]. unfold writeItem. cbn [isLive statusBoxes].
    split; [apply Hattr|].
    rewrite Forall_fmap. apply Forall_forall. intros statusBox _. cbn beta.
    unfold compose. apply updateStatusBox_live.
Qed.

End DriverProperties.

(** * Further properties of the countdown *)

Section Countdown.

Implicit Types (now start n : Z) (eventTime : num) (s : string).

(** X1.  The timeline of an event: upcoming until three minutes before the
    start, live from there to six hours after the start, both ends
    included, and passed from then on. *)
Theorem status_by_interval now start :
  (status (getEventStatusAt now start) = "upcoming" ↔ now < start - LIVE_THRESHOLD_MS)
  ∧ (status (getEventStatusAt now start) = "live"
     ↔ start - LIVE_THRESHOLD_MS ≤ now ≤ start + LIVE_DURATION_MS)
  ∧ (status (getEventStatusAt now start) = "passed" ↔ start + LIVE_DURATION_MS < now).
Proof.
  rewrite status_upcoming_iff, status_live_iff, status_passed_iff. lia.
Qed.

Lemma pretty_N_go_length (x : N) : ∀ s,
  (0 < x)%N → (String.length s < String.length (pretty_N_go x s))%nat.
Proof.
  induction (N.lt_wf_0 x) as [x _ IH]; intros s Hx.
  rewrite pretty_N_go_step by done.
  destruct (decide (x `div` 10 = 0)%N) as [->|Hne].
  - rewrite pretty_N_go_0. simpl. lia.
  - assert (Hdiv : (0 < x `div` 10)%N) by (apply N.neq_0_lt_0; exact Hne).
    pose proof (IH (x `div` 10)%N (N.div_lt x 10 Hx eq_refl)
                  (String (pretty_N_char (x `mod` 10)) s) Hdiv) as Hlen.
    simpl String.length in Hlen. lia.
Qed.

Lemma pretty_length_ge_10 n : 10 ≤ n → (2 ≤ String.length (pretty n))%nat.
Proof.
  intros Hn. destruct n as [|p|p]; try lia.
  unfold pretty, pretty_Z, pretty, pretty_positive, pretty, pretty_N.
  rewrite decide_False by done. rewrite pretty_N_go_step by done.
  pose proof (pretty_N_go_length (N.pos p `div` 10)
                (String (pretty_N_char (N.pos p `mod` 10)) EmptyString)) as Hlen.
  simpl String.length in Hlen. apply Hlen.
  apply N.div_str_pos. lia.
Qed.

Lemma pretty_length_lt_10 n : 0 ≤ n < 10 → String.length (pretty n) = 1%nat.
Proof.
  intros Hn.
  assert (n = 0 ∨ n = 1 ∨ n = 2 ∨ n = 3 ∨ n = 4 ∨ n = 5 ∨ n = 6 ∨ n = 7 ∨ n = 8 ∨ n = 9)
    as Hcases by lia.
  repeat (destruct Hcases as [->|Hcases]; [reflexivity|]). by subst.
Qed.

(** X2.  [pad] puts one zero before a number below ten and leaves a number
    from ten on as it is, in full, however many digits it has. *)
Theorem pad_nonneg n :
  0 ≤ n →
  pad n = if n <? 10 then "0" +:+ Js.toString n else Js.toString n.
Proof.
  intros Hn. unfold pad, Js.padStart, Js.toString.
  destruct (Z.ltb_spec n 10) as [Hlt|Hge].
  - rewrite pretty_length_lt_10 by lia. reflexivity.
  - pose proof (pretty_length_ge_10 n Hge) as Hlen.
    replace (2 - String.length (pretty n))%nat with 0%nat by lia. reflexivity.
Qed.

(** X3.  The days are on the countdown exactly when a whole day or more is
    left; the hours, minutes and seconds always are. *)
Theorem countdown_days_shown now start :
  status (getEventStatusAt now start) = "upcoming" →
  let dist := start - now in
  let hms := spanOpen +:+ pad (dist mod 86400000 / 3600000) +:+ ":"
             +:+ pad (dist mod 3600000 / 60000) +:+ ":"
             +:+ pad (dist mod 60000 / 1000) +:+ "</span>" in
  timerText (getEventStatusAt now start) =
    (if dist <? 86400000 then "Ostáva: "
     else "Ostáva: " +:+ spanOpen +:+ pad (dist / 86400000) +:+ ":</span>") +:+ hms.
Proof.
  intros Hup dist hms. pose proof Hup as Hfar. apply status_upcoming_iff in Hfar.
  assert (Hpos : 0 ≤ dist) by (subst dist; unfold LIVE_THRESHOLD_MS in Hfar; lia).
  rewrite getEventStatusAt_Num in Hup |- *.
  destruct (_ <? _); [discriminate|]. destruct (_ <=? _); [discriminate|].
  cbn [timerText]. unfold Js.sub. fold dist.
  unfold countdownText, remaining, Js.floorDiv, Js.rem, Js.gt, Js.lt. simpl Z.eqb. cbv iota.
  cbn [days hours minutes seconds]. rewrite !Z.rem_mod_nonneg by lia.
  change (1000 * 60 * 60 * 24) with 86400000. change (1000 * 60 * 60) with 3600000.
  change (1000 * 60) with 60000.
  destruct (Z.ltb_spec dist 86400000) as [Hlt|Hge].
  - replace (0 <? dist / 86400000) with false; [reflexivity|].
    symmetry. apply Z.ltb_ge. rewrite Z.div_small by lia. lia.
  - replace (0 <? dist / 86400000) with true.
    + reflexivity.
    + symmetry. apply Z.ltb_lt. apply Z.div_str_pos. lia.
Qed.

Lemma updateStatusBox_eq now eventTime (statusBox : StatusBox) :
  let r := getEventStatusAt now eventTime in
  updateStatusBox r statusBox =
    {| innerHTML := timerText r;
       classList :=
         filter (λ c, c ∉ ["live_event"; "upcoming_event"; "passed_event"])
                (classList statusBox)
         ++ [statusClass (status r)] |}.
Proof.
  intros r. unfold updateStatusBox, classAdd.
  set (cl := classRemove _ _).
  assert (Hnot : ∀ c, c ∈ ["live_event"; "upcoming_event"; "passed_event"] → c ∉ cl).
  { intros c Hc. by apply classRemove_not_elem. }
  assert (Hr : r = {| status := "passed"; timerText := "Už prebehlo" |}
             ∨ r = {| status := "live"; timerText := "Naživo" |}
             ∨ status r = "upcoming").
  { subst r. destruct eventTime as [start|]; [|by right; right].
    rewrite getEventStatusAt_Num.
    destruct (_ <? _); [by left|]. destruct (_ <=? _); [by right; left|by right; right]. }
  destruct Hr as [->|[->|Hup]]; cbn [status timerText]; rewrite ?Hup;
    repeat case_decide; try done;
    exfalso; (eapply Hnot; [|eassumption]); set_solver.
Qed.

Lemma statusClass_status now eventTime :
  statusClass (status (getEventStatusAt now eventTime))
  ∈ ["live_event"; "upcoming_event"; "passed_event"].
Proof.
  destruct (status_cases now eventTime) as [E|[E|E]]; simpl in E; rewrite E;
    unfold statusClass; set_solver.
Qed.

Lemma updateStatusBox_idem now eventTime (statusBox : StatusBox) :
  let r := getEventStatusAt now eventTime in
  updateStatusBox r (updateStatusBox r statusBox) = updateStatusBox r statusBox.
Proof.
  intros r. subst r. rewrite !updateStatusBox_eq. cbn [classList]. f_equal. f_equal.
  rewrite filter_app, list_filter_filter.
  rewrite filter_cons_False by (intros Hnot; apply Hnot, statusClass_status).
  rewrite filter_nil, app_nil_r. apply list_filter_iff. tauto.
Qed.

(** X4.  On what the classifier returns, a status box gets the text of the
    classifier itself and, after the classes it had that are not status
    classes, in their order, the one class of the status; a second
    update with the same result changes nothing. *)
Theorem updateStatusBox_classified now eventTime (statusBox : StatusBox) :
  let r := getEventStatusAt now eventTime in
  updateStatusBox r statusBox =
    {| innerHTML := timerText r;
       classList :=
         filter (λ c, c ∉ ["live_event"; "upcoming_event"; "passed_event"])
                (classList statusBox)
         ++ [statusClass (status r)] |}
  ∧ statusClass (status r) ∈ ["live_event"; "upcoming_event"; "passed_event"]
  ∧ updateStatusBox r (updateStatusBox r statusBox) = updateStatusBox r statusBox.
Proof.
  intros r. split; [apply updateStatusBox_eq|]. split; [apply statusClass_status|].
  apply updateStatusBox_idem.
Qed.

Lemma replaceNonAlnum_length s : String.length (replaceNonAlnum s) = String.length s.
Proof. induction s as [|c s IH]; simpl; by rewrite ?IH. Qed.

Lemma replaceNonAlnum_ok s :
  Forall (λ c, isAlnum c = true ∨ c = "-"%char) (list_ascii_of_string (replaceNonAlnum s)).
Proof.
  induction s as [|c s IH]; simpl; constructor; [|exact IH].
  destruct (isAlnum c) eqn:Hc; [by left|by right].
Qed.

Lemma replaceNonAlnum_idem s : replaceNonAlnum (replaceNonAlnum s) = replaceNonAlnum s.
Proof.
  induction s as [|c s IH]; simpl; [reflexivity|]. rewrite IH. f_equal.
  destruct (isAlnum c) eqn:Hc; [by rewrite Hc|reflexivity].
Qed.

(** X5.  The id of the countdown element of a date of ASCII characters
    is [countdown-] followed by as many characters as the date has, each
    a letter, a digit or a hyphen and again ASCII; the dates that are
    spelled with these characters only are kept as they are. *)
Theorem countdownId_shape s :
  isAscii s →
  ∃ body,
    countdownId s = "countdown-" +:+ body
    ∧ isAscii body
    ∧ String.length body = String.length s
    ∧ Forall (λ c, isAlnum c = true ∨ c = "-"%char) (list_ascii_of_string body)
    ∧ replaceNonAlnum body = body
    ∧ (Forall (λ c, isAlnum c = true ∨ c = "-"%char) (list_ascii_of_string s) → body = s).
Proof.
  intros Hascii. exists (replaceNonAlnum s). split; [reflexivity|].
  split; [|split; [apply replaceNonAlnum_length|]; split; [apply replaceNonAlnum_ok|];
           split; [apply replaceNonAlnum_idem|]].
  - clear -Hascii. unfold isAscii in *.
    induction s as [|c s IH]; simpl in *; [constructor|].
    inversion Hascii as [|? ? Hc Hs]; subst. constructor; [|by apply IH].
    destruct (isAlnum c); [exact Hc|]. vm_compute. lia.
  - clear Hascii. induction s as [|c s IH]; simpl; [reflexivity|].
    intros Hall. inversion Hall as [|? ? Hc Hs]; subst. rewrite IH by exact Hs. f_equal.
    destruct Hc as [->| ->]; reflexivity.
Qed.

End Countdown.

(** * Properties of the accordion *)

Section Accordion.

Implicit Types (i j : nat) (item : Item) (l : list Item) (p : Page).

Lemma toggleAccordion_items i (forceOpen : bool) p item :
  items p !! i = Some item →
  items (toggleAccordion i forceOpen p) =
    if forceOpen || negb (active item)
    then alter expand i (closeActive <$> items p)
    else alter collapse i (items p).
Proof.
  intros Hi. unfold toggleAccordion. rewrite Hi.
  destruct forceOpen, (active item); reflexivity.
Qed.

Lemma toggleAccordion_scrolled i (forceOpen : bool) p :
  scrolled (toggleAccordion i forceOpen p) =
    if bool_decide (i < length (items p))%nat && forceOpen
    then scrolled p ++ [i] else scrolled p.
Proof.
  unfold toggleAccordion. destruct (items p !! i) as [item|] eqn:Hi.
  - rewrite bool_decide_eq_true_2 by (by eapply lookup_lt_Some).
    destruct forceOpen, (active item); reflexivity.
  - rewrite bool_decide_eq_false_2; [reflexivity|].
    apply lookup_ge_None in Hi. lia.
Qed.

Lemma toggleAccordion_None i (forceOpen : bool) p :
  items p !! i = None → toggleAccordion i forceOpen p = p.
Proof. intros Hi. unfold toggleAccordion. by rewrite Hi. Qed.

Lemma Forall2_alter_fmap (R : Item → Item → Prop) (f g : Item → Item) l : ∀ i,
  (∀ x, R x (g x)) → (∀ x, R x (f (g x))) →
  Forall2 R l (alter f i (g <$> l)).
Proof.
  induction l as [|x l IH]; intros i Hg Hf; [constructor|].
  destruct i as [|i]; simpl.
  - constructor; [apply Hf|]. apply Forall2_fmap_r, Forall_Forall2_diag, Forall_forall.
    intros y _. apply Hg.
  - constructor; [apply Hg|]. by apply IH.
Qed.

Lemma toggleAccordion_keeps i (forceOpen : bool) p :
  env (toggleAccordion i forceOpen p) = env p
  ∧ Forall2 (λ a b, sameEvent a b ∧ scrollHeight a = scrollHeight b)
      (items p) (items (toggleAccordion i forceOpen p)).
Proof.
  destruct (items p !! i) as [item|] eqn:Hi.
  - split.
    + unfold toggleAccordion. rewrite Hi. destruct forceOpen, (active item); reflexivity.
    + rewrite (toggleAccordion_items _ _ _ _ Hi).
      destruct (forceOpen || negb (active item)).
      * apply Forall2_alter_fmap; intros x; unfold closeActive;
          destruct (active x); done.
      * rewrite <- (list_fmap_id (items p)) at 2.
        apply Forall2_alter_fmap; intros x; done.
  - rewrite toggleAccordion_None by done. split; [reflexivity|].
    apply Forall_Forall2_diag, Forall_forall. done.
Qed.

(** X11.  [toggleAccordion] writes the open state of items and nothing else:
    the dates, the live attributes, the status boxes and the heights of
    the contents stay, no item comes or goes, and the countdowns and the
    clock are not touched; only a forced opening scrolls. *)
Theorem toggleAccordion_frame i (forceOpen : bool) p :
  env (toggleAccordion i forceOpen p) = env p
  ∧ Forall2 (λ a b, sameEvent a b ∧ scrollHeight a = scrollHeight b)
      (items p) (items (toggleAccordion i forceOpen p))
  ∧ scrolled (toggleAccordion i false p) = scrolled p.
Proof.
  split; [apply toggleAccordion_keeps|]. split; [apply toggleAccordion_keeps|].
  rewrite toggleAccordion_scrolled. by rewrite andb_false_r.
Qed.

(** X12.  A click on a closed item opens it, with the height of its content
    and 30 pixels, closes every other item that was open and leaves the
    closed ones as they were; nothing is scrolled. *)
Theorem click_closed_item i item p :
  items p !! i = Some item →
  active item = false →
  scrolled (toggleAccordion i false p) = scrolled p
  ∧ items (toggleAccordion i false p) !! i = Some (expand item)
  ∧ maxHeight (expand item) = Some (Js.toString (scrollHeight item + 30)%Z +:+ "px")
  ∧ ∀ j other, j ≠ i → items p !! j = Some other →
      items (toggleAccordion i false p) !! j
      = Some (if active other then collapse other else other).
Proof.
  intros Hi Hclosed. rewrite toggleAccordion_scrolled, andb_false_r.
  rewrite (toggleAccordion_items _ _ _ _ Hi), Hclosed. simpl.
  split; [reflexivity|]. split; [|split; [reflexivity|]].
  - rewrite list_lookup_alter_eq, list_lookup_fmap, Hi. simpl.
    unfold closeActive. by rewrite Hclosed.
  - intros j other Hne Hj. rewrite list_lookup_alter_ne by done.
    by rewrite list_lookup_fmap, Hj.
Qed.

(** X13.  A click on an open item closes it and changes no other item, open or
    not; nothing is scrolled. *)
Theorem click_open_item i item p :
  items p !! i = Some item →
  active item = true →
  scrolled (toggleAccordion i false p) = scrolled p
  ∧ items (toggleAccordion i false p) !! i = Some (collapse item)
  ∧ ∀ j, j ≠ i → items (toggleAccordion i false p) !! j = items p !! j.
Proof.
  intros Hi Hopen. rewrite toggleAccordion_scrolled, andb_false_r.
  rewrite (toggleAccordion_items _ _ _ _ Hi), Hopen. simpl.
  split; [reflexivity|]. split.
  - by rewrite list_lookup_alter_eq, Hi.
  - intros j Hne. by rewrite list_lookup_alter_ne.
Qed.

Lemma opened_only i l j item :
  alter expand i (closeActive <$> l) !! j = Some item → active item = true → j = i.
Proof.
  intros Hj Hactive. destruct (decide (j = i)) as [|Hne]; [done|].
  rewrite list_lookup_alter_ne, list_lookup_fmap in Hj by done.
  destruct (l !! j) as [x|]; [|discriminate]. injection Hj as <-.
  unfold closeActive in Hactive. destruct (active x) eqn:Hx; simpl in Hactive; congruence.
Qed.

Lemma toggleAccordion_atMostOneActive i (forceOpen : bool) p :
  atMostOneActive (items p) → atMostOneActive (items (toggleAccordion i forceOpen p)).
Proof.
  intros Hone. destruct (items p !! i) as [item|] eqn:Hi;
    [|by rewrite toggleAccordion_None].
  rewrite (toggleAccordion_items _ _ _ _ Hi).
  destruct (forceOpen || negb (active item)).
  - intros j k a b Hj Hk Ha Hb.
    rewrite (opened_only _ _ _ _ Hj Ha), (opened_only _ _ _ _ Hk Hb). reflexivity.
  - assert (Hsub : ∀ j a, alter collapse i (items p) !! j = Some a → active a = true →
                          items p !! j = Some a).
    { intros j a Hj Ha. destruct (decide (j = i)) as [->|Hne].
      - rewrite list_lookup_alter_eq, Hi in Hj. injection Hj as <-. discriminate.
      - by rewrite list_lookup_alter_ne in Hj. }
    intros j k a b Hj Hk Ha Hb. eapply Hone; eauto.
Qed.

(** X14.  Whatever was open before, once [toggleAccordion] has opened an item,
    by a click or by force, that item is the only open one. *)
Theorem opened_item_only_open i (forceOpen : bool) p item :
  items p !! i = Some item →
  forceOpen || negb (active item) = true →
  (∃ item', items (toggleAccordion i forceOpen p) !! i = Some item' ∧ active item' = true)
  ∧ ∀ j other, items (toggleAccordion i forceOpen p) !! j = Some other →
               active other = true → j = i.
Proof.
  intros Hi Hopens. rewrite (toggleAccordion_items _ _ _ _ Hi), Hopens. split.
  - eexists. rewrite list_lookup_alter_eq, list_lookup_fmap, Hi. simpl. done.
  - intros j other. apply opened_only.
Qed.

Lemma expand_tidy item : tidy (expand item).
Proof. unfold tidy, expand. simpl. done. Qed.

Lemma collapse_tidy item : tidy (collapse item).
Proof. unfold tidy, collapse. simpl. done. Qed.

Lemma toggleAccordion_tidy i (forceOpen : bool) p :
  Forall tidy (items p) → Forall tidy (items (toggleAccordion i forceOpen p)).
Proof.
  intros Htidy. destruct (items p !! i) as [item|] eqn:Hi;
    [|by rewrite toggleAccordion_None].
  rewrite (toggleAccordion_items _ _ _ _ Hi).
  apply Forall_lookup. intros j x Hj.
  assert (Hold : ∀ y, items p !! j = Some y → tidy y).
  { intros y Hy. eapply Forall_lookup_1; eauto. }
  destruct (forceOpen || negb (active item)).
  - destruct (decide (j = i)) as [->|Hne].
    + rewrite list_lookup_alter_eq, list_lookup_fmap, Hi in Hj.
      injection Hj as <-. apply expand_tidy.
    + rewrite list_lookup_alter_ne, list_lookup_fmap in Hj by done.
      destruct (items p !! j) as [y|]; [|discriminate]. injection Hj as <-.
      unfold closeActive. destruct (active y) eqn:Hy; [apply collapse_tidy|by apply Hold].
  - destruct (decide (j = i)) as [->|Hne].
    + rewrite list_lookup_alter_eq, Hi in Hj. injection Hj as <-. apply collapse_tidy.
    + rewrite list_lookup_alter_ne in Hj by done. by apply Hold.
Qed.

(** X15.  Forcing an item open a second time changes no item: it is open
    already, with the same height, and every other item is closed. *)
Theorem force_open_twice i p :
  items (toggleAccordion i true (toggleAccordion i true p))
  = items (toggleAccordion i true p).
Proof.
  destruct (items p !! i) as [item|] eqn:Hi;
    [|by rewrite !toggleAccordion_None by (by rewrite ?toggleAccordion_None)].
  pose proof (toggleAccordion_items i true p item Hi) as Hitems. simpl in Hitems.
  set (p1 := toggleAccordion i true p) in *.
  set (l1 := alter expand i (closeActive <$> items p)) in *.
  assert (Hi1 : l1 !! i = Some (expand (closeActive item))).
  { subst l1. by rewrite list_lookup_alter_eq, list_lookup_fmap, Hi. }
  assert (Hi1' : items p1 !! i = Some (expand (closeActive item))) by (by rewrite Hitems).
  rewrite (toggleAccordion_items i true p1 _ Hi1'). simpl. rewrite Hitems.
  apply list_eq. intros j. destruct (decide (j = i)) as [->|Hne].
  - rewrite list_lookup_alter_eq, list_lookup_fmap, Hi1.
    unfold closeActive. destruct (active item); reflexivity.
  - rewrite list_lookup_alter_ne, list_lookup_fmap by done. subst l1.
    rewrite list_lookup_alter_ne, list_lookup_fmap by done.
    destruct (items p !! j) as [x|]; [|reflexivity].
    unfold closeActive. destruct (active x) eqn:Hx; simpl; by rewrite ?Hx.
Qed.

End Accordion.

(** * Further properties of the pass over the items *)

Section Pass.

Context `{Platform}.

Implicit Types (now t : Z) (i : nat) (item : Item) (first : option nat) (e : Env)
  (l : list Item) (d : string) (r : EventStatus) (c : gmap string string).

Lemma updateCountdown_dom d r e :
  dom (countdowns (updateCountdown d r e).2) = dom (countdowns e).
Proof.
  unfold updateCountdown. destruct (countdowns e !! countdownId d) eqn:Hid; [|reflexivity].
  repeat case_decide; simpl; try reflexivity; by apply dom_insert_lookup_L.
Qed.

Lemma countdownsAt_put t c item :
  countdownsAt t c item = putIfPresent c (countdownWrite t item).
Proof.
  unfold countdownsAt, countdownWrite, putIfPresent, updateCountdown.
  destruct (noDate (eventDate item)); [reflexivity|]. cbn [countdowns reads].
  set (id := countdownId _).
  destruct (c !! id) eqn:Hid; repeat case_decide; cbn [snd countdowns];
    rewrite ?Hid; reflexivity.
Qed.

Lemma processItem_countdowns now i item first e :
  countdowns (processItem now i item first e).2
  = countdownsAt (clock (reads e)) (countdowns e) item.
Proof.
  unfold countdownsAt. destruct (noDate (eventDate item)) eqn:Hdate.
  - by rewrite processItem_noDate.
  - rewrite processItem_dated by done. cbv zeta. cbn [snd].
    unfold updateCountdown. cbn [countdowns reads].
    set (id := countdownId _).
    destruct (countdowns e !! id) eqn:Hid; repeat case_decide; reflexivity.
Qed.

Lemma processItem_reads now i item first e :
  reads (processItem now i item first e).2
  = if noDate (eventDate item) then reads e else S (reads e).
Proof.
  destruct (noDate (eventDate item)) eqn:Hdate.
  - by rewrite processItem_noDate.
  - rewrite processItem_dated by done. cbv zeta. cbn [snd].
    by rewrite updateCountdown_reads.
Qed.

Lemma processItem_item now i item first e :
  (processItem now i item first e).1.1 =
    if noDate (eventDate item) then item
    else writeItem item
           (if isTemporarilyLive now (timeOf (eventDate item)) then "true" else "false")
           (updateStatusBox (getEventStatusAt (clock (reads e)) (timeOf (eventDate item)))
              <$> statusBoxes item).
Proof.
  destruct (noDate (eventDate item)) eqn:Hdate.
  - by rewrite processItem_noDate.
  - by rewrite processItem_dated.
Qed.

Lemma putIfPresent_dom c w : dom (putIfPresent c w) = dom c.
Proof.
  destruct w as [[id v]|]; [|reflexivity]. simpl.
  destruct (c !! id) eqn:Hid; [|reflexivity]. by apply dom_insert_lookup_L.
Qed.

(** What a pass leaves alone. *)
Lemma forEachItem_keeps now l : ∀ i first e,
  Forall2 (λ a b, sameAccordion a b ∧ eventDate a = eventDate b)
    l (forEachItem now i l first e).1.1
  ∧ dom (countdowns (forEachItem now i l first e).2) = dom (countdowns e)
  ∧ reads (forEachItem now i l first e).2
    = (reads e + length (filter (λ item, noDate (eventDate item) = false) l))%nat.
Proof.
  induction l as [|item l IH]; intros i first e.
  - simpl. split; [constructor|]. split; [reflexivity|]. lia.
  - rewrite forEachItem_cons.
    pose proof (processItem_item now i item first e) as Hitem.
    pose proof (processItem_countdowns now i item first e) as Hcd.
    pose proof (processItem_reads now i item first e) as Hreads.
    destruct (processItem now i item first e) as [[item' first'] e'].
    destruct (IH (S i) first' e') as (Hsame & Hdom & Hr).
    destruct (forEachItem now (S i) l first' e') as [[l' first''] e''].
    simpl in *. split; [|split].
    + constructor; [|exact Hsame]. subst item'.
      destruct (noDate (eventDate item)); done.
    + rewrite Hdom, Hcd, countdownsAt_put. apply putIfPresent_dom.
    + rewrite Hr, Hreads. rewrite filter_cons.
      destruct (noDate (eventDate item)); simpl; lia.
Qed.

Lemma updateAccordionHeaders_keeps l e :
  let res := updateAccordionHeaders l e in
  Forall2 (λ a b, sameAccordion a b ∧ eventDate a = eventDate b) l res.1.1
  ∧ dom (countdowns res.2) = dom (countdowns e)
  ∧ reads res.2
    = (reads e + 1 + length (filter (λ item, noDate (eventDate item) = false) l))%nat.
Proof.
  intros res. subst res. unfold updateAccordionHeaders, mbind, M_bind, getTime.
  destruct (forEachItem_keeps (clock (reads e)) l 0 None
              {| reads := S (reads e); countdowns := countdowns e |}) as (Hsame & Hdom & Hr).
  split; [exact Hsame|]. split; [exact Hdom|]. rewrite Hr. simpl. lia.
Qed.

(** X8.  The pass over the items opens, closes and scrolls nothing, keeps the
    dates and the number of the items, makes and removes no countdown
    element, and reads the clock once for itself and once more for each
    item that has a date. *)
Theorem updateAccordionHeaders_frame l e :
  let res := updateAccordionHeaders l e in
  Forall2 (λ a b, sameAccordion a b ∧ eventDate a = eventDate b) l res.1.1
  ∧ length res.1.1 = length l
  ∧ dom (countdowns res.2) = dom (countdowns e)
  ∧ reads res.2
    = (reads e + 1 + length (filter (λ item, noDate (eventDate item) = false) l))%nat.
Proof.
  intros res. destruct (updateAccordionHeaders_keeps l e) as (Hsame & Hdom & Hreads).
  split; [exact Hsame|]. split; [symmetry; by eapply Forall2_length|]. done.
Qed.

(** ** The pass while the clock stands still *)

Section Still.

Variable t : Z.
Hypothesis Hclock : ∀ k, clock k = t.

Lemma forEachItem_still l : ∀ i first e,
  (forEachItem t i l first e).1.1 = processedAt t <$> l
  ∧ countdowns (forEachItem t i l first e).2 = foldl (countdownsAt t) (countdowns e) l.
Proof.
  induction l as [|item l IH]; intros i first e; [done|].
  rewrite forEachItem_cons.
  pose proof (processItem_item t i item first e) as Hitem.
  pose proof (processItem_countdowns t i item first e) as Hcd.
  destruct (processItem t i item first e) as [[item' first'] e'].
  destruct (IH (S i) first' e') as (Hitems & Hcds).
  destruct (forEachItem t (S i) l first' e') as [[l' first''] e''].
  simpl in *. rewrite Hclock in Hitem, Hcd. split.
  - rewrite Hitems. f_equal. exact Hitem.
  - by rewrite Hcds, Hcd.
Qed.

Lemma classifications_still l : ∀ k,
  classifications k l =
    (λ item, if noDate (eventDate item) then None
             else Some (status (getEventStatusAt t (timeOf (eventDate item))))) <$> l.
Proof.
  induction l as [|item l IH]; intros k; [reflexivity|].
  cbn [classifications]. rewrite Hclock, fmap_cons. cbn beta.
  destruct (noDate (eventDate item)); by rewrite IH.
Qed.

Lemma processedAt_eventDate item : eventDate (processedAt t item) = eventDate item.
Proof. unfold processedAt. by destruct (noDate (eventDate item)). Qed.

Lemma processedAt_idem item : processedAt t (processedAt t item) = processedAt t item.
Proof.
  unfold processedAt. destruct (noDate (eventDate item)) eqn:Hdate; rewrite ?Hdate; [done|].
  cbn [eventDate writeItem]. rewrite Hdate. unfold writeItem. cbn. f_equal.
  rewrite <- list_fmap_compose. apply list_fmap_ext. intros j statusBox _.
  apply updateStatusBox_idem.
Qed.

Lemma foldl_put_is_Some (ws : list (option (string * string))) : ∀ c k,
  is_Some (foldl putIfPresent c ws !! k) ↔ is_Some (c !! k).
Proof.
  induction ws as [|w ws IH]; intros c k; [done|]. simpl. rewrite IH.
  rewrite <- !elem_of_dom. by rewrite putIfPresent_dom.
Qed.

Lemma foldl_put_absorb (ws : list (option (string * string))) : ∀ c c',
  (∀ k, c' !! k = c !! k ∨ c' !! k = foldl putIfPresent c ws !! k) →
  foldl putIfPresent c' ws = foldl putIfPresent c ws.
Proof.
  induction ws as [|w ws IH]; intros c c' Hk.
  - simpl in *. apply map_eq. intros k. by destruct (Hk k).
  - simpl in *. apply IH. intros k.
    destruct w as [[id v]|]; simpl; [|exact (Hk k)].
    assert (Hpres : is_Some (c' !! id) ↔ is_Some (c !! id)).
    { destruct (Hk id) as [->| ->]; [done|].
      rewrite foldl_put_is_Some. rewrite <- !elem_of_dom.
      by rewrite (putIfPresent_dom c (Some (id, v))). }
    specialize (Hk k). simpl in Hk.
    destruct (c !! id) as [v0|] eqn:Hc, (c' !! id) as [v0'|] eqn:Hc';
      try (exfalso; destruct Hpres as [H1 H2];
           first [by destruct H1 as [? [=]]|by destruct H2 as [? [=]]]).
    + destruct (decide (k = id)) as [->|Hne].
      * left. by rewrite !lookup_insert_eq.
      * rewrite !lookup_insert_ne by done. exact Hk.
    + exact Hk.
Qed.

Lemma foldl_countdownsAt c l :
  foldl (countdownsAt t) c l = foldl putIfPresent c (countdownWrite t <$> l).
Proof.
  revert c. induction l as [|item l IH]; intros c; [reflexivity|].
  simpl. by rewrite IH, countdownsAt_put.
Qed.

Lemma countdownWrite_processedAt item :
  countdownWrite t (processedAt t item) = countdownWrite t item.
Proof. unfold countdownWrite. by rewrite processedAt_eventDate. Qed.

End Still.

(** X9.  While the clock stands still a second pass changes nothing: the
    items, the countdown elements and the first live item it returns are
    those of the first pass. *)
Theorem pass_idempotent t l e :
  (∀ k, clock k = t) →
  let res1 := updateAccordionHeaders l e in
  let res2 := updateAccordionHeaders res1.1.1 res1.2 in
  res2.1.1 = res1.1.1 ∧ res2.1.2 = res1.1.2 ∧ countdowns res2.2 = countdowns res1.2.
Proof.
  intros Hclock res1 res2. subst res1 res2.
  unfold updateAccordionHeaders, mbind, M_bind, getTime. rewrite !Hclock.
  set (e1 := {| reads := S (reads e); countdowns := countdowns e |}).
  destruct (forEachItem_still t Hclock l 0 None e1) as (Hl1 & Hc1).
  pose proof (forEachItem_first t l 0 None e1) as Hf1.
  destruct (forEachItem t 0 l None e1) as [[l1 first1] e1'].
  simpl in Hl1, Hc1, Hf1 |- *.
  set (e2 := {| reads := S (reads e1'); countdowns := countdowns e1' |}).
  destruct (forEachItem_still t Hclock l1 0 None e2) as (Hl2 & Hc2).
  pose proof (forEachItem_first t l1 0 None e2) as Hf2.
  destruct (forEachItem t 0 l1 None e2) as [[l2 first2] e2'].
  simpl in Hl2, Hc2, Hf2 |- *. subst l1. split; [|split].
  - rewrite Hl2, <- list_fmap_compose. apply list_fmap_ext.
    intros j item _. apply processedAt_idem.
  - rewrite Hf1, Hf2. do 2 f_equal.
    rewrite !(classifications_still t Hclock), <- list_fmap_compose.
    apply list_fmap_ext. intros j item _. simpl.
    by rewrite processedAt_eventDate.
  - rewrite Hc2, Hc1. rewrite !foldl_countdownsAt, <- list_fmap_compose.
    rewrite (list_fmap_ext (countdownWrite t ∘ processedAt t) (countdownWrite t) l)
      by (intros j item _; apply countdownWrite_processedAt).
    apply foldl_put_absorb. intros k. by right.
Qed.

End Pass.

(** * The pass on single items *)

Section PassCases.

Context `{Platform}.

Implicit Types (now t start : Z) (i : nat) (item : Item) (first : option nat) (e : Env)
  (l : list Item) (d : string).

(** X7.  An event whose live window has passed when it is classified: its
    status boxes say so and get the class of a passed event, it is never
    taken as the first live item, and its countdown element is not
    written, so that it keeps what it showed before. *)
Theorem passed_item_processed now i item first e d start :
  eventDate item = Some d →
  d ≠ EmptyString →
  parseDate d = Num start →
  start + LIVE_DURATION_MS < clock (reads e) →
  let res := processItem now i item first e in
  countdowns res.2 = countdowns e
  ∧ res.1.2 = first
  ∧ Forall (λ statusBox, (innerHTML statusBox = "Už prebehlo")
                         ∧ "passed_event" ∈ classList statusBox
                         ∧ ("live_event" ∉ classList statusBox)
                         ∧ ("upcoming_event" ∉ classList statusBox))
      (statusBoxes res.1.1).
Proof.
  intros Hd Hne Hstart Hlate res. subst res.
  assert (Hdate : noDate (eventDate item) = false).
  { rewrite Hd. simpl. by apply bool_decide_eq_false_2. }
  assert (Hr : getEventStatusAt (clock (reads e)) (timeOf (eventDate item))
               = {| status := "passed"; timerText := "Už prebehlo" |}).
  { rewrite Hd. simpl. rewrite Hstart, getEventStatusAt_Num.
    replace (start + LIVE_DURATION_MS - clock (reads e) <? 0) with true; [reflexivity|].
    symmetry. apply Z.ltb_lt. lia. }
  rewrite processItem_dated by done. cbv zeta. cbn [fst snd]. rewrite Hr.
  split; [|split].
  - unfold updateCountdown. cbn [status countdowns reads].
    destruct (_ !! _); [|reflexivity]. by rewrite !decide_False by done.
  - by rewrite bool_decide_eq_false_2 by done.
  - unfold writeItem. cbn [statusBoxes]. rewrite Forall_fmap. apply Forall_forall.
    intros statusBox _. unfold compose.
    pose proof (updateStatusBox_eq (clock (reads e)) (timeOf (eventDate item)) statusBox)
      as Heq. rewrite Hr in Heq. cbv zeta in Heq. rewrite Heq. cbn.
    rewrite !elem_of_app, !list_elem_of_filter, !list_elem_of_singleton.
    unfold statusClass. split; [done|]. split; [by right|].
    split; (intros [[Hnot _]|Heq']; [apply Hnot; set_solver|discriminate Heq']).
Qed.

(** X6.  An item whose date is not empty and cannot be parsed is upcoming for
    good: whatever the clock reads, its live attribute is [false], its
    status boxes get the class of an upcoming event and a countdown of
    [NaN]s with no days, and it is never taken as the first live item. *)
Theorem unparseable_item_processed now i item first e d :
  eventDate item = Some d →
  d ≠ EmptyString →
  parseDate d = NaN →
  let res := processItem now i item first e in
  isLive res.1.1 = Some "false"
  ∧ res.1.2 = first
  ∧ Forall (λ statusBox,
      (innerHTML statusBox = "Ostáva: " +:+ spanOpen +:+ "NaN:NaN:NaN</span>")
      ∧ "upcoming_event" ∈ classList statusBox
      ∧ ("live_event" ∉ classList statusBox)
      ∧ ("passed_event" ∉ classList statusBox))
      (statusBoxes res.1.1).
Proof.
  intros Hd Hne Hnan res. subst res.
  assert (Hdate : noDate (eventDate item) = false).
  { rewrite Hd. simpl. by apply bool_decide_eq_false_2. }
  assert (Ht : timeOf (eventDate item) = NaN) by (by rewrite Hd).
  rewrite processItem_dated by done. cbv zeta. cbn [fst snd]. rewrite Ht.
  rewrite getEventStatusAt_NaN. split; [reflexivity|]. split.
  - by rewrite bool_decide_eq_false_2 by done.
  - unfold writeItem. cbn [statusBoxes]. rewrite Forall_fmap. apply Forall_forall.
    intros statusBox _. unfold compose.
    pose proof (updateStatusBox_eq (clock (reads e)) NaN statusBox) as Heq.
    rewrite getEventStatusAt_NaN in Heq. cbv zeta in Heq. rewrite Heq. cbn.
    rewrite !elem_of_app, !list_elem_of_filter, !list_elem_of_singleton.
    unfold statusClass. split; [reflexivity|]. split; [by right|].
    split; (intros [[Hnot _]|Heq']; [apply Hnot; set_solver|discriminate Heq']).
Qed.

(** X10.  While the clock stands still, the item a pass returns as the first
    live one carries the live attribute [true] and has a date. *)
Theorem returned_item_marked_live t l e i :
  (∀ k, clock k = t) →
  (updateAccordionHeaders l e).1.2 = Some i →
  ∃ item item',
    l !! i = Some item
    ∧ (updateAccordionHeaders l e).1.1 !! i = Some item'
    ∧ noDate (eventDate item) = false
    ∧ isLive item' = Some "true"
    ∧ Forall (λ statusBox, "live_event" ∈ classList statusBox) (statusBoxes item').
Proof.
  intros Hclock. unfold updateAccordionHeaders, mbind, M_bind, getTime. rewrite Hclock.
  set (e1 := {| reads := S (reads e); countdowns := countdowns e |}).
  destruct (forEachItem_still t Hclock l 0 None e1) as (Hl1 & _).
  pose proof (forEachItem_first t l 0 None e1) as Hf1.
  destruct (forEachItem t 0 l None e1) as [[l1 first1] e1'].
  simpl in Hl1, Hf1 |- *. intros ->. subst l1.
  destruct (firstLive _) as [j|] eqn:Hfl; [|discriminate]. simpl in Hf1.
  injection Hf1 as ->. apply firstLive_Some in Hfl as [Hi _].
  rewrite (classifications_still t Hclock) in Hi.
  rewrite list_lookup_fmap in Hi. destruct (l !! j) as [item|] eqn:Hitem; [|discriminate].
  simpl in Hi. destruct (noDate (eventDate item)) eqn:Hdate; [discriminate|].
  injection Hi as Hlive. exists item, (processedAt t item).
  split; [reflexivity|]. split; [by rewrite list_lookup_fmap, Hitem|].
  split; [exact Hdate|]. unfold processedAt. rewrite Hdate. unfold writeItem.
  cbn [isLive statusBoxes]. split.
  - apply isTemporarilyLive_status in Hlive. by rewrite Hlive.
  - rewrite Forall_fmap. apply Forall_forall. intros statusBox _. unfold compose.
    by apply updateStatusBox_live.
Qed.

End PassCases.

(** * Properties of the clocks and of the life of the page *)

Section ClocksProperties.

Context `{Platform} `{Locale}.

Implicit Types (texts : gmap string string) (e : Env) (p : Page) (iso tz : string).

(** X16.  [formatTime] always formats for the Slovak locale and the time zone
    it is given, never in a 12-hour clock; it asks for the time of day
    or for the date and never for both; and it formats the date of the
    string, or the present reading of the clock when the string is
    absent or empty, which is the only case in which it reads the
    clock. *)
Theorem formatTime_spec (isoString : option string) tz (includeDate : bool) e :
  let options := formatOptions tz includeDate in
  let date := if noDate isoString then Num (clock (reads e)) else timeOf isoString in
  (formatTime isoString tz includeDate e).1 = toLocaleString date "sk-SK" options
  ∧ reads (formatTime isoString tz includeDate e).2
    = (if noDate isoString then S (reads e) else reads e)
  ∧ options !! "timeZone" = Some (OStr tz)
  ∧ options !! "hour12" = Some (OBool false)
  ∧ (∀ k, k ∈ ["hour"; "minute"; "second"] →
          (is_Some (options !! k) ↔ includeDate = false))
  ∧ (∀ k, k ∈ ["year"; "month"; "day"] →
          (is_Some (options !! k) ↔ includeDate = true)).
Proof.
  intros options date. subst options date. unfold formatTime, mbind, M_bind, mret, M_ret.
  destruct (noDate isoString); simpl; (split; [reflexivity|]); (split; [reflexivity|]);
    unfold formatOptions; destruct includeDate;
    (split; [by simplify_map_eq|]); (split; [by simplify_map_eq|]);
    split; intros k Hk;
    repeat (apply elem_of_cons in Hk as [->|Hk]); try (by apply elem_of_nil in Hk);
    simplify_map_eq; split; intros Hx; try done; by destruct Hx.
Qed.

Lemma formatTime_dated iso tz (includeDate : bool) e :
  iso ≠ EmptyString →
  formatTime (Some iso) tz includeDate e
  = (toLocaleString (parseDate iso) "sk-SK" (formatOptions tz includeDate), e).
Proof.
  intros Hiso. unfold formatTime, mbind, M_bind, mret, M_ret. simpl.
  by rewrite bool_decide_eq_false_2.
Qed.

Lemma formatTime_countdowns (isoString : option string) tz (includeDate : bool) e :
  countdowns (formatTime isoString tz includeDate e).2 = countdowns e.
Proof.
  unfold formatTime, mbind, M_bind, mret, M_ret. by destruct (noDate isoString).
Qed.

Lemma setTextContent_dom id v texts texts' :
  setTextContent id v texts = Some texts' → dom texts' = dom texts.
Proof.
  unfold setTextContent. destruct (texts !! id) eqn:Hid; [|discriminate].
  intros [= <-]. by apply dom_insert_lookup_L.
Qed.

Lemma setTextContent_other id v texts texts' k :
  setTextContent id v texts = Some texts' → k ≠ id → texts' !! k = texts !! k.
Proof.
  unfold setTextContent. destruct (texts !! id); [|discriminate].
  intros [= <-] Hne. by rewrite lookup_insert_ne.
Qed.

Ltac run_clocks :=
  unfold updateClocks, mbind, M_bind, mret, M_ret, getTime;
  repeat match goal with
    | |- context [formatTime ?a ?b ?c ?e] =>
        let v := fresh "v" in let e' := fresh "e" in
        pose proof (formatTime_countdowns a b c e);
        destruct (formatTime a b c e) as [v e']
    | |- context [setTextContent ?i ?v ?t] =>
        let Hset := fresh "Hset" in
        destruct (setTextContent i v t) eqn:Hset
    end.

(** What [updateClocks] leaves alone, however it ends: no element comes
    or goes, no element other than the four of the clocks is written,
    and the countdown elements are not touched. *)
Lemma updateClocks_keeps texts e :
  dom (updateClocks texts e).1.1 = dom texts
  ∧ (∀ k, k ∉ clockIds → (updateClocks texts e).1.1 !! k = texts !! k)
  ∧ countdowns (updateClocks texts e).2 = countdowns e.
Proof.
  run_clocks; simpl in *; (split; [|split]);
    repeat match goal with
      | Hset : setTextContent _ _ _ = Some _ |- _ =>
          pose proof (setTextContent_dom _ _ _ _ Hset);
          pose proof (λ k, setTextContent_other _ _ _ _ k Hset);
          clear Hset
      end;
    try congruence.
  all: intros k Hk; unfold clockIds in Hk;
    repeat match goal with
      | Hother : ∀ k, k ≠ ?id → _ |- _ =>
          rewrite Hother
            by (intros Heq; apply Hk; rewrite Heq; apply list_elem_of_In; simpl; tauto);
          clear Hother
      end; reflexivity.
Qed.

Lemma setTextContent_lookup id v texts :
  setTextContent id v texts =
    match texts !! id with Some _ => Some (<[id := v]> texts) | None => None end.
Proof. reflexivity. Qed.

(** [updateClocks] step by step, on a clock whose ISO string is not
    empty: every value is that of the one reading. *)
Lemma updateClocks_run texts e :
  let iso := toISOString (clock (reads e)) in
  let shown tz includeDate :=
    toLocaleString (parseDate iso) "sk-SK" (formatOptions tz includeDate) in
  iso ≠ EmptyString →
  updateClocks texts e =
    (match texts !! "japan-time" with
     | None => (texts, Thrown)
     | Some _ =>
         let texts1 := <["japan-time" := shown TOKYO_TIMEZONE false]> texts in
         match texts !! "japan-date" with
         | None => (texts1, Thrown)
         | Some _ =>
             let texts2 := <["japan-date" := shown TOKYO_TIMEZONE true]> texts1 in
             match texts !! "slovakia-time" with
             | None => (texts2, Thrown)
             | Some _ =>
                 let texts3 :=
                   <["slovakia-time" := shown BRATISLAVA_TIMEZONE false]> texts2 in
                 match texts !! "slovakia-date" with
                 | None => (texts3, Thrown)
                 | Some _ =>
                     (<["slovakia-date" := shown BRATISLAVA_TIMEZONE true]> texts3,
                      Completed)
                 end
             end
         end
     end,
     {| reads := S (reads e); countdowns := countdowns e |}).
Proof.
  intros iso shown Hiso. subst shown.
  unfold updateClocks, mbind, M_bind, mret, M_ret, getTime. fold iso.
  rewrite formatTime_dated by exact Hiso. cbv beta iota zeta.
  rewrite setTextContent_lookup. destruct (texts !! "japan-time"); [|reflexivity].
  rewrite formatTime_dated by exact Hiso. cbv beta iota zeta.
  rewrite setTextContent_lookup, lookup_insert_ne by done.
  destruct (texts !! "japan-date"); [|reflexivity].
  rewrite formatTime_dated by exact Hiso. cbv beta iota zeta.
  rewrite setTextContent_lookup, !lookup_insert_ne by done.
  destruct (texts !! "slovakia-time"); [|reflexivity].
  rewrite formatTime_dated by exact Hiso. cbv beta iota zeta.
  rewrite setTextContent_lookup, !lookup_insert_ne by done.
  destruct (texts !! "slovakia-date"); reflexivity.
Qed.

(** X17.  With its four elements in the document, [updateClocks] reads the
    clock once and writes the four of them from the date of that one
    reading: both clocks show the same instant. *)
Theorem updateClocks_completed texts e :
  let iso := toISOString (clock (reads e)) in
  let shown tz includeDate :=
    toLocaleString (parseDate iso) "sk-SK" (formatOptions tz includeDate) in
  iso ≠ EmptyString →
  (∀ id, id ∈ clockIds → is_Some (texts !! id)) →
  updateClocks texts e =
    ((<["slovakia-date" := shown BRATISLAVA_TIMEZONE true]>
        (<["slovakia-time" := shown BRATISLAVA_TIMEZONE false]>
           (<["japan-date" := shown TOKYO_TIMEZONE true]>
              (<["japan-time" := shown TOKYO_TIMEZONE false]> texts))),
      Completed),
     {| reads := S (reads e); countdowns := countdowns e |}).
Proof.
  intros iso shown Hiso Hall. subst shown.
  destruct (Hall "japan-time") as [x1 H1]; [unfold clockIds; set_solver|].
  destruct (Hall "japan-date") as [x2 H2]; [unfold clockIds; set_solver|].
  destruct (Hall "slovakia-time") as [x3 H3]; [unfold clockIds; set_solver|].
  destruct (Hall "slovakia-date") as [x4 H4]; [unfold clockIds; set_solver|].
  rewrite updateClocks_run by exact Hiso. fold iso. by rewrite H1, H2, H3, H4.
Qed.

Lemma updateClocks_outcome texts e :
  toISOString (clock (reads e)) ≠ EmptyString →
  (updateClocks texts e).1.2 = Thrown ↔ ∃ id, id ∈ clockIds ∧ texts !! id = None.
Proof.
  intros Hiso. rewrite updateClocks_run by exact Hiso. unfold clockIds. cbn [fst snd].
  destruct (texts !! "japan-time") as [x1|] eqn:H1;
    [|split; [intros _; exists "japan-time"; split; [set_solver|done]|done]].
  destruct (texts !! "japan-date") as [x2|] eqn:H2;
    [|split; [intros _; exists "japan-date"; split; [set_solver|done]|done]].
  destruct (texts !! "slovakia-time") as [x3|] eqn:H3;
    [|split; [intros _; exists "slovakia-time"; split; [set_solver|done]|done]].
  destruct (texts !! "slovakia-date") as [x4|] eqn:H4;
    [|split; [intros _; exists "slovakia-date"; split; [set_solver|done]|done]].
  split; [done|]. intros (id & Hid & Hnone).
  repeat (apply elem_of_cons in Hid as [Heq|Hid]; [rewrite Heq in Hnone; congruence|]).
  by apply elem_of_nil in Hid.
Qed.

(** X18.  [updateClocks] ends with an exception exactly when one of its four
    elements is missing; what was written before the missing one stays
    written, and when the first of the four is missing nothing is.  It
    makes and removes no element and writes none but these four. *)
Theorem updateClocks_thrown texts e :
  toISOString (clock (reads e)) ≠ EmptyString →
  ((updateClocks texts e).1.2 = Thrown ↔ ∃ id, id ∈ clockIds ∧ texts !! id = None)
  ∧ (texts !! "japan-time" = None → (updateClocks texts e).1.1 = texts)
  ∧ dom (updateClocks texts e).1.1 = dom texts
  ∧ (∀ k, k ∉ clockIds → (updateClocks texts e).1.1 !! k = texts !! k).
Proof.
  intros Hiso. split; [by apply updateClocks_outcome|]. split.
  - intros Hnone. rewrite updateClocks_run by exact Hiso. by rewrite Hnone.
  - split; apply updateClocks_keeps.
Qed.

End ClocksProperties.

(** * The life of the page *)

Section Life.

Context `{Platform} `{Locale}.

Implicit Types (texts : gmap string string) (e : Env) (p : Page) (l : list Item)
  (evs : list Event).

Lemma atMostOneActive_same l l' :
  Forall2 (λ a b, sameAccordion a b ∧ eventDate a = eventDate b) l l' →
  atMostOneActive l → atMostOneActive l'.
Proof.
  intros Hsame Hone j k a b Hj Hk Ha Hb.
  destruct (Forall2_lookup_r _ _ _ _ _ Hsame Hj) as (a0 & Hj0 & [(Hact & _) _]).
  destruct (Forall2_lookup_r _ _ _ _ _ Hsame Hk) as (b0 & Hk0 & [(Hbct & _) _]).
  apply (Hone j k a0 b0); congruence.
Qed.

Lemma tidy_same l l' :
  Forall2 (λ a b, sameAccordion a b ∧ eventDate a = eventDate b) l l' →
  Forall tidy l → Forall tidy l'.
Proof.
  intros Hsame Htidy. apply Forall_lookup. intros j b Hj.
  destruct (Forall2_lookup_r _ _ _ _ _ Hsame Hj) as (a & Hj0 & [(Hact & Hmax & Hsh & Hrot) _]).
  pose proof (Forall_lookup_1 _ _ _ _ Htidy Hj0) as Ha.
  unfold tidy in *. by rewrite <- Hact, <- Hmax, <- Hsh, <- Hrot.
Qed.

Lemma sameDocument_refl st : sameDocument st st.
Proof.
  split; [done|]. split; [done|]. apply Forall_Forall2_diag, Forall_forall. done.
Qed.

Lemma sameDocument_trans st1 st2 st3 :
  sameDocument st1 st2 → sameDocument st2 st3 → sameDocument st1 st3.
Proof.
  intros (Ht1 & Hc1 & Hi1) (Ht2 & Hc2 & Hi2). split; [congruence|]. split; [congruence|].
  eapply Forall2_trans; [|exact Hi1|exact Hi2].
  intros a b c [? ?] [? ?]. split; congruence.
Qed.

Lemma pass_sameDocument texts p :
  let res := updateAccordionHeaders (items p) (env p) in
  sameDocument (texts, p)
    (texts, {| items := res.1.1; env := res.2; scrolled := scrolled p |}).
Proof.
  intros res. destruct (updateAccordionHeaders_keeps (items p) (env p)) as (Hsame & Hdom & _).
  split; [done|]. split; [exact Hdom|]. simpl.
  eapply Forall2_impl; [exact Hsame|]. intros a b [(_ & _ & Hsh & _) Hd]. done.
Qed.

Lemma toggle_sameDocument texts p i (forceOpen : bool) :
  sameDocument (texts, p) (texts, toggleAccordion i forceOpen p).
Proof.
  destruct (toggleAccordion_keeps i forceOpen p) as (Henv & Hsame).
  split; [done|]. split; [simpl; by rewrite Henv|]. simpl.
  eapply Forall2_impl; [exact Hsame|]. intros a b [(Hd & _) Hsh]. done.
Qed.

Lemma step_keeps st ev :
  sameDocument st (step st ev)
  ∧ scrolled (step st ev).2 = scrolled st.2
  ∧ (atMostOneActive (items st.2) → atMostOneActive (items (step st ev).2))
  ∧ (Forall tidy (items st.2) → Forall tidy (items (step st ev).2)).
Proof.
  destruct st as [texts p]. destruct ev as [i| |]; simpl.
  - split; [apply toggle_sameDocument|]. split.
    + rewrite toggleAccordion_scrolled. by rewrite andb_false_r.
    + split; [apply toggleAccordion_atMostOneActive|apply toggleAccordion_tidy].
  - pose proof (pass_sameDocument texts p) as Hdoc.
    destruct (updateAccordionHeaders_keeps (items p) (env p)) as (Hsame & _).
    destruct (updateAccordionHeaders (items p) (env p)) as [[l first] e]. simpl in *.
    split; [exact Hdoc|]. split; [reflexivity|].
    split; [by apply atMostOneActive_same|by apply tidy_same].
  - destruct (updateClocks_keeps texts (env p)) as (Hdom & _ & Hcd).
    destruct (updateClocks texts (env p)) as [[texts' outcome] e]. simpl in *.
    split; [|done]. split; [exact Hdom|]. split; [simpl; by rewrite Hcd|].
    apply Forall_Forall2_diag, Forall_forall. done.
Qed.

Lemma run_keeps evs : ∀ st,
  sameDocument st (run evs st)
  ∧ scrolled (run evs st).2 = scrolled st.2
  ∧ (atMostOneActive (items st.2) → atMostOneActive (items (run evs st).2))
  ∧ (Forall tidy (items st.2) → Forall tidy (items (run evs st).2)).
Proof.
  induction evs as [|ev evs IH]; intros st.
  - split; [apply sameDocument_refl|]. done.
  - unfold run in *. simpl.
    destruct (step_keeps st ev) as (Hdoc & Hscr & Hone & Htidy).
    destruct (IH (step st ev)) as (Hdoc' & Hscr' & Hone' & Htidy').
    split; [by eapply sameDocument_trans|]. split; [congruence|]. split; auto.
Qed.

Lemma onDOMContentLoaded_keeps texts p :
  sameDocument (texts, p) (texts, onDOMContentLoaded p)
  ∧ (atMostOneActive (items p) → atMostOneActive (items (onDOMContentLoaded p)))
  ∧ (Forall tidy (items p) → Forall tidy (items (onDOMContentLoaded p))).
Proof.
  unfold onDOMContentLoaded.
  pose proof (pass_sameDocument texts p) as Hdoc.
  destruct (updateAccordionHeaders_keeps (items p) (env p)) as (Hsame & _).
  destruct (updateAccordionHeaders (items p) (env p)) as [[l first] e]. simpl in *.
  set (p' := {| items := l; env := e; scrolled := scrolled p |}) in *.
  destruct first as [i|].
  - split; [|split].
    + eapply sameDocument_trans; [exact Hdoc|apply toggle_sameDocument].
    + intros Hone. apply toggleAccordion_atMostOneActive. by eapply atMostOneActive_same.
    + intros Htidy. apply toggleAccordion_tidy. by eapply tidy_same.
  - split; [exact Hdoc|]. split; [by apply atMostOneActive_same|by apply tidy_same].
Qed.

(** X19.  The handler of the load ends with an exception exactly when an
    element of the clocks is missing, and then no event is classified, no
    item is opened and nothing is scrolled; otherwise it goes on to the
    first pass and the opening of the first live item, one reading of
    the clock later. *)
Theorem handleDOMContentLoaded_outcome texts p :
  toISOString (clock (reads (env p))) ≠ EmptyString →
  let res := handleDOMContentLoaded texts p in
  (res.2 = Thrown ↔ ∃ id, id ∈ clockIds ∧ texts !! id = None)
  ∧ (res.2 = Thrown →
     items res.1.2 = items p ∧ scrolled res.1.2 = scrolled p
     ∧ countdowns (env res.1.2) = countdowns (env p))
  ∧ (res.2 = Completed →
     res.1.2 = onDOMContentLoaded
                 {| items := items p;
                    env := {| reads := S (reads (env p)); countdowns := countdowns (env p) |};
                    scrolled := scrolled p |}).
Proof.
  intros Hiso res. subst res. unfold handleDOMContentLoaded.
  pose proof (updateClocks_outcome texts (env p) Hiso) as Hout.
  pose proof (updateClocks_run texts (env p) Hiso) as Hrun. cbv zeta in Hrun.
  destruct (updateClocks texts (env p)) as [[texts' outcome] e].
  injection Hrun as _ Hee. subst e. simpl in Hout.
  destruct outcome; simpl.
  - split; [|split; [discriminate|done]].
    split; [discriminate|]. intros Hmiss. by apply Hout in Hmiss.
  - split; [|split; [done|discriminate]]. split; [intros _; by apply Hout|done].
Qed.

(** X20.  From the load on, through any clicks and ticks of the two timers:
    if at most one item was open in the markup, at most one item is open
    at every moment, and if the open state of every item was tidy, it
    stays tidy. *)
Theorem lifetime_at_most_one_open evs texts p :
  (atMostOneActive (items p) → atMostOneActive (items (lifetime evs texts p).2))
  ∧ (Forall tidy (items p) → Forall tidy (items (lifetime evs texts p).2)).
Proof.
  unfold lifetime, handleDOMContentLoaded.
  destruct (updateClocks texts (env p)) as [[texts' outcome] e].
  set (p' := {| items := items p; env := e; scrolled := scrolled p |}).
  destruct outcome; simpl.
  - destruct (onDOMContentLoaded_keeps texts' p') as (_ & Hone & Htidy).
    destruct (run_keeps evs (texts', onDOMContentLoaded p')) as (_ & _ & Hone' & Htidy').
    split; auto.
  - destruct (run_keeps evs (texts', p')) as (_ & _ & Hone' & Htidy'). split; auto.
Qed.

(** X21.  After the load no click and no tick of a timer scrolls the page,
    makes or removes an element, or changes the date of an event or the
    number of the items. *)
Theorem events_keep_document evs texts p :
  scrolled (run evs (texts, p)).2 = scrolled p
  ∧ dom (run evs (texts, p)).1 = dom texts
  ∧ dom (countdowns (env (run evs (texts, p)).2)) = dom (countdowns (env p))
  ∧ length (items (run evs (texts, p)).2) = length (items p)
  ∧ Forall2 (λ a b, eventDate a = eventDate b ∧ scrollHeight a = scrollHeight b)
      (items p) (items (run evs (texts, p)).2).
Proof.
  destruct (run_keeps evs (texts, p)) as ((Hdom & Hcd & Hitems) & Hscr & _).
  simpl in *. split; [exact Hscr|]. split; [exact Hdom|]. split; [exact Hcd|].
  split; [symmetry; by eapply Forall2_length|exact Hitems].
Qed.

End Life.

(** * The properties on sample inputs *)

Section Samples.

#[local] Existing Instance samplePlatform.

(** C2, as first stated: at the end of the live window itself, where
    [now = startInstant + liveDuration], the status is live and not
    passed. *)
Lemma status_at_window_end_not_passed :
  21600000 >= 0 + LIVE_DURATION_MS
  ∧ status (getEventStatusAt 21600000 0) = "live"
  ∧ status (getEventStatusAt 21600000 0) ≠ "passed".
Proof. split; [vm_compute; discriminate|]. split; [reflexivity|discriminate]. Qed.

Lemma passed_after_live_window_witness :
  21600001 > 0 + LIVE_DURATION_MS ∧ status (getEventStatusAt 21600001 0) = "passed".
Proof.
  split; [reflexivity|]. apply (proj1 (passed_after_live_window 21600001 0)). reflexivity.
Defined.

(** One minute before the start. *)
Lemma live_within_window_witness :
  0 - (-60000) ≤ LIVE_THRESHOLD_MS ∧ -60000 < 0 + LIVE_DURATION_MS
  ∧ status (getEventStatusAt (-60000) 0) = "live".
Proof.
  split; [vm_compute; discriminate|]. split; [reflexivity|].
  apply (live_within_window (-60000) 0); [vm_compute; discriminate|reflexivity].
Defined.

(** One day, one hour, one minute, one second and a millisecond before
    the start. *)
Lemma upcoming_remaining_decomposition_witness :
  status (getEventStatusAt 0 90061001) = "upcoming"
  ∧ ∃ d h m s : Z,
      remaining 90061001 = {| days := d; hours := h; minutes := m; seconds := s |}
      ∧ d * 86400 + h * 3600 + m * 60 + s = 90061.
Proof.
  split; [reflexivity|].
  destruct (upcoming_remaining_decomposition 0 90061001 eq_refl)
    as (d & h & m & s & _ & Hrem & _ & _ & _ & _ & _ & _ & Hsum).
  exists d, h, m, s. split; [exact Hrem|exact Hsum].
Defined.

(** From upcoming, 200 seconds before the start, to live at the start. *)
Lemma status_monotone_witness :
  -200000 ≤ 0
  ∧ (statusRank (status (getEventStatusAt (-200000)%Z 0%Z))
       ≤ statusRank (status (getEventStatusAt 0%Z 0%Z)))%nat.
Proof.
  split; [vm_compute; discriminate|].
  apply (status_monotone 0 (-200000) 0). vm_compute; discriminate.
Defined.

(** The same date at the same time, in two documents and after different
    numbers of readings of the clock. *)
Lemma getEventStatus_deterministic_witness :
  let e2 := {| reads := 5; countdowns := {[ countdownId sampleDate := "Naživo!" ]} |} in
  (getEventStatus sampleDate sampleEnv).1 = (getEventStatus sampleDate e2).1.
Proof.
  exact (proj1 (getEventStatus_deterministic sampleDate sampleDate sampleEnv
                  {| reads := 5; countdowns := {[ countdownId sampleDate := "Naživo!" ]} |}
                  eq_refl eq_refl)).
Defined.

(** C8, as first stated: an item whose date is not empty and cannot be
    parsed is not skipped.  It is classified upcoming, its data attribute
    is written and its status box gets a countdown of [NaN]s. *)
Lemma unparseable_date_not_skipped :
  noDate (Some "soon") = false
  ∧ timeOf (Some "soon") = NaN
  ∧ (processItem sampleStart 0 (sampleItem (Some "soon") false) None sampleEnv).1.1
    = {| eventDate := Some "soon";
         isLive := Some "false";
         statusBoxes :=
           [ {| innerHTML := "Ostáva: " +:+ spanOpen +:+ "NaN:NaN:NaN</span>";
                classList := ["status-box"; "upcoming_event"] |} ];
         active := false;
         maxHeight := None;
         scrollHeight := 120;
         rotated := false |}
  ∧ (processItem sampleStart 0 (sampleItem (Some "soon") false) None sampleEnv).1.1
    ≠ sampleItem (Some "soon") false.
Proof. repeat split; try reflexivity. discriminate. Qed.

(** An item without the attribute between two live ones. *)
Lemma item_without_date_skipped_witness :
  noDate (eventDate (sampleItem None false)) = true
  ∧ forEachItem sampleStart 0
      [sampleItem (Some sampleDate) false; sampleItem None false;
       sampleItem (Some sampleDate) false]
      None sampleEnv
    = let '((l1', first1), e1) :=
        forEachItem sampleStart 0 [sampleItem (Some sampleDate) false] None sampleEnv in
      let '((l2', first2), e2) :=
        forEachItem sampleStart 2 [sampleItem (Some sampleDate) false] first1 e1 in
      ((l1' ++ sampleItem None false :: l2', first2), e2).
Proof.
  split; [reflexivity|].
  exact (proj2 (item_without_date_skipped sampleStart 0 (sampleItem None false) None
                  sampleEnv [sampleItem (Some sampleDate) false]
                  [sampleItem (Some sampleDate) false] eq_refl)).
Defined.

(** The second item of the sample page, the first live one, is opened. *)
Lemma load_opens_first_live_witness :
  scrolled (onDOMContentLoaded samplePage) = [1%nat]
  ∧ (∃ item, items (onDOMContentLoaded samplePage) !! 1%nat = Some item ∧ active item = true)
  ∧ (∀ j item, items (onDOMContentLoaded samplePage) !! j = Some item →
               active item = true → j = 1%nat).
Proof.
  apply (proj1 (load_opens_first_live samplePage) 1%nat); [reflexivity|].
  intros [|j] Hj; [discriminate|]. exfalso. clear -Hj. lia.
Defined.

(** C10, as first stated: on a clock that moves from one millisecond
    before the live threshold to the threshold between the reading of
    the pass and the reading of the classifier, the item gets the
    attribute [false] while its status box shows it live and the pass
    returns it as the first live item. *)
Lemma isLive_attribute_differs_between_readings :
  let res := @updateAccordionHeaders sampleMovingPlatform
               [sampleItem (Some sampleDate) false] sampleEnv in
  isLive <$> res.1.1 = [Some "false"]
  ∧ statusBoxes <$> res.1.1
    = [[ {| innerHTML := "Naživo"; classList := ["status-box"; "live_event"] |} ]]
  ∧ res.1.2 = Some 0%nat.
Proof. repeat split. Qed.

(** A live item on the same moving clock, at two readings that give the
    same time. *)
Lemma isLive_attribute_iff_live_witness :
  let e := {| reads := 2; countdowns := ∅ |} in
  let item' := (@processItem sampleMovingPlatform (sampleStart - 180000) 0
                  (sampleItem (Some sampleDate) false) None e).1.1 in
  isLive item' = Some "true"
  ↔ status (@getEventStatus sampleMovingPlatform sampleDate e).1 = "live".
Proof.
  exact (proj1 (proj1 (proj2 (@isLive_attribute_iff_live sampleMovingPlatform
                                (sampleStart - 180000) 0
                                (sampleItem (Some sampleDate) false) None
                                {| reads := 2; countdowns := ∅ |}))
                  eq_refl eq_refl)).
Defined.

End Samples.

(** * The further properties on sample inputs *)

Section MoreSamples.

#[local] Existing Instance samplePlatform.
#[local] Existing Instance sampleLocale.

Lemma sampleDate_isAscii : isAscii sampleDate.
Proof. unfold isAscii. apply (bool_decide_unpack _). vm_compute. exact I. Defined.

(** The id of the countdown element of the sample date. *)
Lemma countdownId_shape_witness :
  isAscii sampleDate
  ∧ ∃ body, countdownId sampleDate = "countdown-" +:+ body
            ∧ String.length body = String.length sampleDate.
Proof.
  split; [exact sampleDate_isAscii|].
  destruct (countdownId_shape sampleDate sampleDate_isAscii)
    as (body & Hid & _ & Hlen & _).
  exists body. split; [exact Hid|exact Hlen].
Defined.

Lemma pad_nonneg_witness : 0 ≤ 7 ∧ pad 7 = "07".
Proof. split; [done|]. exact (pad_nonneg 7 ltac:(done)). Defined.

(** One day, one hour, one minute and one second before the start. *)
Lemma countdown_days_shown_witness :
  timerText (getEventStatusAt 0 90061001) =
    "Ostáva: " +:+ spanOpen +:+ "01:</span>" +:+ spanOpen +:+ "01:01:01</span>".
Proof. exact (countdown_days_shown 0 90061001 eq_refl). Defined.

(** A click on the second item of the sample page, which is closed,
    while the first is open. *)
Lemma click_closed_item_witness :
  items (toggleAccordion 1 false samplePage) !! 1%nat
  = Some (expand (sampleItem (Some sampleDate) false))
  ∧ items (toggleAccordion 1 false samplePage) !! 0%nat
    = Some (collapse (sampleItem (Some "soon") true)).
Proof.
  destruct (click_closed_item 1 (sampleItem (Some sampleDate) false) samplePage
              eq_refl eq_refl) as (_ & Hopened & _ & Hothers).
  split; [exact Hopened|].
  exact (Hothers 0%nat (sampleItem (Some "soon") true) ltac:(discriminate) eq_refl).
Defined.

(** A click on the first item of the sample page, which is open. *)
Lemma click_open_item_witness :
  items (toggleAccordion 0 false samplePage) !! 0%nat
  = Some (collapse (sampleItem (Some "soon") true))
  ∧ scrolled (toggleAccordion 0 false samplePage) = [].
Proof.
  destruct (click_open_item 0 (sampleItem (Some "soon") true) samplePage eq_refl eq_refl)
    as (Hscr & Hclosed & _).
  split; [exact Hclosed|exact Hscr].
Defined.

Lemma opened_item_only_open_witness :
  ∃ item', items (toggleAccordion 2 true samplePage) !! 2%nat = Some item'
           ∧ active item' = true.
Proof.
  exact (proj1 (opened_item_only_open 2 true samplePage
                  (sampleItem (Some sampleDate) false) eq_refl eq_refl)).
Defined.

(** Two passes over the sample page on the clock that stands still. *)
Lemma pass_idempotent_witness :
  let res1 := updateAccordionHeaders (items samplePage) sampleEnv in
  let res2 := updateAccordionHeaders res1.1.1 res1.2 in
  res2.1.1 = res1.1.1 ∧ res2.1.2 = res1.1.2 ∧ countdowns res2.2 = countdowns res1.2.
Proof.
  exact (pass_idempotent sampleStart (items samplePage) sampleEnv (λ _, eq_refl)).
Defined.

(** The sample event seven hours after its start, with a countdown
    element that still says it is live. *)
Lemma passed_item_processed_witness :
  let e := {| reads := 0; countdowns := {[ countdownId sampleDate := "Naživo!" ]} |} in
  let res := @processItem samplePlatformLate (sampleStart + 7 * 60 * 60 * 1000) 0
               (sampleItem (Some sampleDate) false) None e in
  countdowns res.2 = {[ countdownId sampleDate := "Naživo!" ]}
  ∧ res.1.2 = None.
Proof.
  destruct (@passed_item_processed samplePlatformLate (sampleStart + 7 * 60 * 60 * 1000) 0
              (sampleItem (Some sampleDate) false) None
              {| reads := 0; countdowns := {[ countdownId sampleDate := "Naživo!" ]} |}
              sampleDate sampleStart eq_refl ltac:(discriminate) eq_refl eq_refl)
    as (Hcd & Hfirst & _).
  split; [exact Hcd|exact Hfirst].
Defined.

Lemma unparseable_item_processed_witness :
  isLive (processItem sampleStart 0 (sampleItem (Some "soon") false) None sampleEnv).1.1
  = Some "false".
Proof.
  exact (proj1 (unparseable_item_processed sampleStart 0 (sampleItem (Some "soon") false)
                  None sampleEnv "soon" eq_refl ltac:(discriminate) eq_refl)).
Defined.

Lemma returned_item_marked_live_witness :
  ∃ item item',
    items samplePage !! 1%nat = Some item
    ∧ (updateAccordionHeaders (items samplePage) sampleEnv).1.1 !! 1%nat = Some item'
    ∧ noDate (eventDate item) = false
    ∧ isLive item' = Some "true"
    ∧ Forall (λ statusBox, "live_event" ∈ classList statusBox) (statusBoxes item').
Proof.
  exact (returned_item_marked_live sampleStart (items samplePage) sampleEnv 1
           (λ _, eq_refl) eq_refl).
Defined.

Lemma sampleIso_not_empty : toISOString (clock (reads sampleEnv)) ≠ EmptyString.
Proof. discriminate. Defined.

Lemma sampleTexts_complete : ∀ id, id ∈ clockIds → is_Some (sampleTexts !! id).
Proof.
  intros id Hid. unfold clockIds in Hid.
  repeat (apply elem_of_cons in Hid as [->|Hid]; [by eexists|]).
  by apply elem_of_nil in Hid.
Defined.

(** The four elements of the clocks after an update on the sample clock. *)
Lemma updateClocks_completed_witness :
  (updateClocks sampleTexts sampleEnv).1.2 = Completed
  ∧ (updateClocks sampleTexts sampleEnv).1.1 !! "japan-time"
    = Some "1763197200000@Asia/Tokyo time"
  ∧ (updateClocks sampleTexts sampleEnv).1.1 !! "slovakia-date"
    = Some "1763197200000@Europe/Bratislava date".
Proof.
  rewrite (updateClocks_completed sampleTexts sampleEnv sampleIso_not_empty
             sampleTexts_complete).
  repeat split.
Defined.

(** The same without the element of the Slovak time of day: the two
    Japanese elements are written and the exception follows. *)
Lemma updateClocks_thrown_witness :
  (updateClocks (delete "slovakia-time" sampleTexts) sampleEnv).1.2 = Thrown.
Proof.
  apply (proj1 (updateClocks_thrown (delete "slovakia-time" sampleTexts) sampleEnv
                  sampleIso_not_empty)).
  exists "slovakia-time". split; [|reflexivity].
  unfold clockIds. do 2 apply list_elem_of_further. apply list_elem_of_here.
Defined.

(** The load of the sample page without the element of the Japanese
    date: no item is touched. *)
Lemma handleDOMContentLoaded_outcome_witness :
  let res := handleDOMContentLoaded (delete "japan-date" sampleTexts) samplePage in
  res.2 = Thrown ∧ items res.1.2 = items samplePage ∧ scrolled res.1.2 = [].
Proof.
  destruct (handleDOMContentLoaded_outcome (delete "japan-date" sampleTexts) samplePage
              sampleIso_not_empty) as (_ & Hthrown & _).
  split; [reflexivity|]. destruct (Hthrown eq_refl) as (Hitems & Hscr & _).
  split; [exact Hitems|exact Hscr].
Defined.

Lemma samplePage_atMostOneActive : atMostOneActive (items samplePage).
Proof.
  intros [|[|[|j]]] [|[|[|k]]] a b Hj Hk Ha Hb; simpl in Hj, Hk;
    try reflexivity; try discriminate;
    repeat match goal with
      | Heq : Some _ = Some _ |- _ => injection Heq as <-
      end; discriminate.
Defined.

(** The sample page through its load, a click on the third item, a tick
    of each timer and a click on the first item. *)
Lemma lifetime_at_most_one_open_witness :
  atMostOneActive (items samplePage)
  ∧ atMostOneActive
      (items (lifetime [Click 2; HeadersTick; ClocksTick; Click 0] sampleTexts samplePage).2).
Proof.
  split; [exact samplePage_atMostOneActive|].
  exact (proj1 (lifetime_at_most_one_open [Click 2; HeadersTick; ClocksTick; Click 0]
                  sampleTexts samplePage) samplePage_atMostOneActive).
Defined.

End MoreSamples.
